(** * Backlog: working-day calendar, status fetch pipeline, reminder scheduler

    A shallow embedding of [utils/holidays.ts], [utils/statusFetcher.ts] and
    [services/notificationService.ts], with the properties the specification
    states about them. *)

From stdpp Require Import gmap strings list fin_maps.
From Stdlib Require Import ZArith Lia Ascii DecimalString.

Local Open Scope Z_scope.

(** ** ECMAScript [Date], in local time

    A JavaScript [Date] is an instant counted in milliseconds.  All the
    methods the repository calls ([getFullYear], [getDate], [setDate],
    [getDay], date-fns [format] and [isWeekend]) read the instant in the local
    time zone.  The model fixes a zone with a constant UTC offset (South
    Africa Standard Time has no daylight saving) and stores the local
    milliseconds, so that a local day always lasts [msPerDay] and comparing
    two values compares the instants.  The [TimeClip] range limit of
    ECMAScript and the [Invalid Date] value are outside the model. *)

Module JSDate.

Definition Date := Z.

Definition msPerDay : Z := 86400000.

Definition Day (t : Date) : Z := t / msPerDay.

Definition TimeWithinDay (t : Date) : Z := t mod msPerDay.

Definition MakeDate (day time : Z) : Date := day * msPerDay + time.

(** Days since 1970-01-01 of the proleptic Gregorian date [y]-[m]-[d]
    ([m] in 1..12); linear in [d], as ECMAScript's [MakeDay] is. *)
Definition daysFromCivil (y m d : Z) : Z :=
  let y' := if m <=? 2 then y - 1 else y in
  let era := y' / 400 in
  let yoe := y' mod 400 in
  let mp := if 2 <? m then m - 3 else m + 9 in
  let doy := (153 * mp + 2) / 5 + d - 1 in
  let doe := yoe * 365 + yoe / 4 - yoe / 100 + doy in
  era * 146097 + doe - 719468.

(** The inverse: year, month (1..12) and day of month of a day number. *)
Definition civilFromDays (z : Z) : Z * Z * Z :=
  let z' := z + 719468 in
  let era := z' / 146097 in
  let doe := z' mod 146097 in
  let yoe := (doe - doe / 1460 + doe / 36524 - doe / 146096) / 365 in
  let doy := doe - (365 * yoe + yoe / 4 - yoe / 100) in
  let mp := (5 * doy + 2) / 153 in
  let d := doy - (153 * mp + 2) / 5 + 1 in
  let m := if mp <? 10 then mp + 3 else mp - 9 in
  ((if m <=? 2 then yoe + era * 400 + 1 else yoe + era * 400), m, d).

(** ECMAScript [MakeDay(year, month, date)], [month] a 0-based index that may
    lie outside 0..11. *)
Definition MakeDay (year month date : Z) : Z :=
  let ym := year + month / 12 in
  let mn := month mod 12 in
  daysFromCivil ym (mn + 1) 1 + date - 1.

Definition getFullYear (t : Date) : Z := (civilFromDays (Day t)).1.1.

(** 0-based month index, as [Date.prototype.getMonth]. *)
Definition getMonth (t : Date) : Z := (civilFromDays (Day t)).1.2 - 1.

Definition getDate (t : Date) : Z := (civilFromDays (Day t)).2.

(** 0 is Sunday, 6 is Saturday; 1970-01-01 was a Thursday. *)
Definition getDay (t : Date) : Z := (Day t + 4) mod 7.

(** [t.setDate(dt)]: same year, month and time of day, day of month [dt],
    which may overflow into the neighbouring months. *)
Definition setDate (t : Date) (dt : Z) : Date :=
  MakeDate (MakeDay (getFullYear t) (getMonth t) dt) (TimeWithinDay t).

(** [new Date(year, monthIndex, day)]: local midnight; a year in 0..99 is
    read as 1900 + year. *)
Definition newDate (year monthIndex day : Z) : Date :=
  let yr := if (0 <=? year) && (year <=? 99) then 1900 + year else year in
  MakeDate (MakeDay yr monthIndex day) 0.

(** A calendar date at a given time of day, for writing examples. *)
Definition at_ (y m d ms : Z) : Date := MakeDate (daysFromCivil y m d) ms.

End JSDate.

Import JSDate.

(** ** [utils/holidays.ts] *)

Module Holidays.

(** Number to string, [`${n}`] for an integer [n]. *)
Definition numToString (n : Z) : string :=
  DecimalString.NilZero.string_of_int (Z.to_int n).

(** date-fns pads the [MM] and [dd] tokens to two digits. *)
Definition addLeadingZeros2 (n : Z) : string :=
  if n <? 10 then "0" +:+ numToString n else numToString n.

(** date-fns [format(date, 'MM-dd')]. *)
Definition formatMMdd (date : Date) : string :=
  addLeadingZeros2 (getMonth date + 1) +:+ "-" +:+ addLeadingZeros2 (getDate date).

(** date-fns [isWeekend(date)]. *)
Definition isWeekend (date : Date) : bool :=
  let day := getDay date in (day =? 0) || (day =? 6).

(** [Array.prototype.includes] on strings. *)
Definition arrayIncludes (l : list string) (s : string) : bool := bool_decide (s ∈ l).

Definition FIXED_HOLIDAYS : list string :=
  [ "01-01"; "03-21"; "04-27"; "05-01"; "06-16";
    "08-09"; "09-24"; "12-16"; "12-25"; "12-26" ].

(** [getEasterDate]: the JavaScript [%] truncates ([Z.rem]) and
    [Math.floor(x / k)] with [k] positive is [Z.div]. *)
Definition getEasterDate (year : Z) : Date :=
  let a := Z.rem year 19 in
  let b := year / 100 in
  let c := Z.rem year 100 in
  let d := b / 4 in
  let e := Z.rem b 4 in
  let f := (b + 8) / 25 in
  let g := (b - f + 1) / 3 in
  let h := Z.rem (19 * a + b - d - g + 15) 30 in
  let i := c / 4 in
  let k := Z.rem c 4 in
  let l := Z.rem (32 + 2 * e + 2 * i - h - k) 7 in
  let m := (a + 11 * h + 22 * l) / 451 in
  let month := (h + l - 7 * m + 114) / 31 in
  let day := Z.rem (h + l - 7 * m + 114) 31 + 1 in
  newDate year (month - 1) day.

Definition getEasterBasedHolidays (year : Z) : list string :=
  let easter := getEasterDate year in
  let goodFriday := setDate easter (getDate easter - 2) in
  let familyDay := setDate easter (getDate easter + 1) in
  [ formatMMdd goodFriday; formatMMdd familyDay ].

Definition isPublicHoliday (date : Date) : bool :=
  let year := getFullYear date in
  let monthDay := formatMMdd date in
  if arrayIncludes FIXED_HOLIDAYS monthDay then true
  else
    let easterHolidays := getEasterBasedHolidays year in
    arrayIncludes easterHolidays monthDay.

Definition isWorkingDay (date : Date) : bool :=
  negb (isWeekend date) && negb (isPublicHoliday date).

(** The [while (current <= endDate)] loop of [calculateWorkingDays]; [None]
    when the fuel runs out before the loop exits. *)
Fixpoint calculateWorkingDays_loop (fuel : nat) (current endDate : Date)
    (workingDays : Z) : option Z :=
  match fuel with
  | O => None
  | S fuel' =>
      if current <=? endDate then
        let workingDays' :=
          if isWorkingDay current then workingDays + 1 else workingDays in
        calculateWorkingDays_loop fuel' (setDate current (getDate current + 1))
          endDate workingDays'
      else Some workingDays
  end.

(** One more than the number of whole days from [startDate] to [endDate]. *)
Definition calculateWorkingDays_fuel (startDate endDate : Date) : nat :=
  S (Z.to_nat ((endDate - startDate) / msPerDay + 1)).

Definition calculateWorkingDays (startDate endDate : Date) : Z :=
  default 0 (calculateWorkingDays_loop
               (calculateWorkingDays_fuel startDate endDate) startDate endDate 0).

(** *** The calendar the specification describes *)

(** The anonymous (Meeus/Jones/Butcher) Gregorian Easter computus, with the
    mathematical floor division and modulus: month and day of Easter Sunday. *)
Definition computusMonthDay (year : Z) : Z * Z :=
  let a := year mod 19 in
  let b := year / 100 in
  let c := year mod 100 in
  let d := b / 4 in
  let e := b mod 4 in
  let f := (b + 8) / 25 in
  let g := (b - f + 1) / 3 in
  let h := (19 * a + b - d - g + 15) mod 30 in
  let i := c / 4 in
  let k := c mod 4 in
  let l := (32 + 2 * e + 2 * i - h - k) mod 7 in
  let m := (a + 11 * h + 22 * l) / 451 in
  ((h + l - 7 * m + 114) / 31, (h + l - 7 * m + 114) mod 31 + 1).

(** Day number of Easter Sunday of [year]. *)
Definition easterSunday (year : Z) : Z :=
  let '(month, day) := computusMonthDay year in daysFromCivil year month day.

(** The ten fixed holidays as (month, day of month). *)
Definition fixedHolidays : list (Z * Z) :=
  [ (1, 1); (3, 21); (4, 27); (5, 1); (6, 16);
    (8, 9); (9, 24); (12, 16); (12, 25); (12, 26) ].

(** [formatMMdd] of a (month, day of month) pair, and reading it back. *)
Definition fmtMonthDay (p : Z * Z) : string :=
  addLeadingZeros2 p.1 +:+ "-" +:+ addLeadingZeros2 p.2.

Definition digitValue (c : Ascii.ascii) : Z := Z.of_nat (Ascii.nat_of_ascii c) - 48.

Definition readMonthDay (s : string) : option (Z * Z) :=
  match s with
  | String a (String b (String _ (String c (String e EmptyString)))) =>
      Some (10 * digitValue a + digitValue b, 10 * digitValue c + digitValue e)
  | _ => None
  end.

(** Easter Sunday of [year] counted in days from the last day of February. *)
Definition easterMarchDay (year : Z) : Z :=
  let '(month, day) := computusMonthDay year in (month - 3) * 31 + day.

(** Month and day of month of the [x]-th day counted from the last day of
    February, for a day of March or April. *)
Definition springMonthDay (x : Z) : Z * Z :=
  if x <=? 31 then (3, x) else (4, x - 31).

(** The instants the loop visits: [start], [start] + 1 day, ... up to [end]. *)
Definition daySteps (startDate endDate : Date) : list Date :=
  if startDate <=? endDate then
    map (fun k => startDate + Z.of_nat k * msPerDay)
        (seq 0 (Z.to_nat ((endDate - startDate) / msPerDay + 1)))
  else [].

(** The calendar days from the day of [start] to the day of [end]. *)
Definition calendarDays (startDate endDate : Date) : list Z :=
  map (fun k => Day startDate + Z.of_nat k)
      (seq 0 (Z.to_nat (Day endDate - Day startDate + 1))).

(** Whether the calendar day [day] is a working day. *)
Definition isWorkingDayNumber (day : Z) : bool := isWorkingDay (MakeDate day 0).

End Holidays.

Import Holidays.

(** How many of the instants (or day numbers) of a list are working days. *)
Definition countWorking {A} (p : A -> bool) (l : list A) : Z :=
  Z.of_nat (length (List.filter p l)).

(** ** JavaScript strings

    Strings are byte strings (the UTF-8 form of the JavaScript string);
    white space is the ASCII white space. *)

Module JSString.

Fixpoint trimStart (s : string) : string :=
  match s with
  | String c s' => if Ascii.is_space c then trimStart s' else s
  | EmptyString => EmptyString
  end.

(** [String.prototype.trim]. *)
Definition trim (s : string) : string :=
  String.rev (trimStart (String.rev (trimStart s))).

(** [String.prototype.includes]. *)
Fixpoint includes (s needle : string) : bool :=
  String.prefix needle s
  || match s with
     | String _ s' => includes s' needle
     | EmptyString => false
     end.

Definition isAlphaNum (c : Ascii.ascii) : bool :=
  let n := Ascii.N_of_ascii c in
  ((48 <=? n) && (n <=? 57) || (65 <=? n) && (n <=? 90)
   || (97 <=? n) && (n <=? 122))%N.

Definition hexDigit (n : N) : Ascii.ascii :=
  Ascii.ascii_of_N (if (n <? 10)%N then 48 + n else 55 + n)%N.

Definition percentByte (c : Ascii.ascii) : string :=
  let n := Ascii.N_of_ascii c in
  String "%"%char (String (hexDigit (n / 16)%N) (String (hexDigit (n mod 16)%N) "")).

Fixpoint percentEncode (keep : Ascii.ascii -> bool) (plus : bool) (s : string) : string :=
  match s with
  | EmptyString => EmptyString
  | String c s' =>
      (if keep c then String c ""
       else if plus && bool_decide (c = " "%char) then "+"
       else percentByte c) +:+ percentEncode keep plus s'
  end.

(** [encodeURIComponent]: letters, digits and [- _ . ! ~ * ' ( )] stay. *)
Definition encodeURIComponent (s : string) : string :=
  percentEncode (fun c => isAlphaNum c || JSString.includes "-_.!~*'()" (String c ""))
    false s.

(** The serializer of [URLSearchParams.toString]: letters, digits and
    [* - . _] stay and a space becomes [+]. *)
Definition formUrlEncode (s : string) : string :=
  percentEncode (fun c => isAlphaNum c || JSString.includes "*-._" (String c ""))
    true s.

Fixpoint join (sep : string) (l : list string) : string :=
  match l with
  | [] => ""
  | [x] => x
  | x :: l' => x +:+ sep +:+ join sep l'
  end.

End JSString.

(** ** [utils/statusFetcher.ts] *)

Module FirearmStatus.
Record t := mk {
  type : string;
  number : string;
  calibre : string;
  make : string;
  status : string;
  description : string;
  nextStep : string;
  workingDaysPending : Z;
  isOverdue : bool;
}.
End FirearmStatus.

Module StatusFetcher.
Import JSString.

Record StatusFetchResult := {
  success : bool;
  status : option FirearmStatus.t;
  error : option string;
}.

Record SearchParams := {
  fref : option string;
  frid : option string;
  fserial : option string;
  fsref : option string;
  fid : option string;
  fiserial : option string;
}.

Definition CORS_PROXIES : list string :=
  [ "https://api.allorigins.win/get?url=";
    "https://corsproxy.io/?";
    "https://cors-anywhere.herokuapp.com/";
    "https://api.codetabs.com/v1/proxy?quest=" ].

(** What the code sends with [fetch]: the URL and the [Accept] header (the
    method and the user agent are constant). *)
Record Request := { url : string; accept : string }.

(** What comes back: [fetch] rejects (network error, the 15 s timeout), or
    there is a response with its HTTP status and its body. *)
Record Response := { httpStatus : Z; statusText : string; body : string }.

Inductive FetchOutcome :=
  | Rejected (message : string)
  | Responded (response : Response).

(** A JavaScript computation that returns or throws an [Error]. *)
Inductive Completion (A : Type) :=
  | Returned (value : A)
  | Thrown (message : string).
Arguments Returned {A} value.
Arguments Thrown {A} message.

(** [response.ok]: the status is in 200..299. *)
Definition ok (r : Response) : bool :=
  (200 <=? httpStatus r) && (httpStatus r <=? 299).

(** The results page, as far as the code looks at it: the rows of the first
    [table.table], each row the [textContent] of its [td] cells, and whether
    the page has a [form]. *)
Record Document := {
  table : option (list (list string));
  form : bool;
}.

Section Pipeline.
(** The network, per request. *)
Variable fetch : Request -> FetchOutcome.
(** [(await response.json()).contents] of a body: the parse throws, or
    the [contents] member (absent: [None]). *)
Variable jsonContents : string -> Completion (option string).
(** [new DOMParser().parseFromString(html, 'text/html')]. *)
Variable parseFromString : string -> Document.
(** [new Date(dateApplied)]. *)
Variable parseDate : string -> Date.

(** The body of the [try] for one proxy: the request made and the HTML
    returned or the error thrown. *)
Definition tryProxy (proxy sapsUrl : string) : Request * Completion string :=
  let allorigins := includes proxy "allorigins.win" in
  let request :=
    {| url := proxy +:+ encodeURIComponent sapsUrl;
       accept := if allorigins then "application/json" else "text/html" |} in
  (request,
   match fetch request with
   | Rejected message => Thrown message
   | Responded response =>
       if negb (ok response) then
         Thrown ("HTTP " +:+ numToString (httpStatus response) +:+ ": "
                 +:+ statusText response)
       else
         let processed :=
           if allorigins then jsonContents (body response)
           else Returned (Some (body response)) in
         match processed with
         | Thrown message => Thrown message
         | Returned html =>
             match html with
             | Some html' =>
                 if bool_decide (html' = "") || (String.length (trim html') =? 0)%nat
                 then Thrown "Empty response received"
                 else Returned html'
             | None => Thrown "Empty response received"
             end
         end
   end).

(** The [for (const proxy of ...)] loop, from the proxies still to try
    and the last error caught; the requests made are returned in order. *)
Fixpoint fetchWithProxy_loop (proxies : list string) (sapsUrl : string)
    (lastError : option string) : list Request * Completion string :=
  match proxies with
  | [] =>
      ([], Thrown ("All CORS proxies failed. Last error: "
                   +:+ default "undefined" lastError))
  | proxy :: proxies' =>
      let '(request, result) := tryProxy proxy sapsUrl in
      match result with
      | Returned html => ([request], Returned html)
      | Thrown message =>
          let '(requests, final) :=
            fetchWithProxy_loop proxies' sapsUrl (Some message) in
          (request :: requests, final)
      end
  end.

Definition fetchWithProxy (sapsUrl : string) : list Request * Completion string :=
  fetchWithProxy_loop CORS_PROXIES sapsUrl None.

Definition failure (message : string) : StatusFetchResult :=
  {| success := false; status := None; error := Some message |}.

(** [searchParams.set(name, value.trim())] when the trimmed value is not
    empty. *)
Definition setParam (name : string) (value : option string)
    (searchParams : list (string * string)) : list (string * string) :=
  match value with
  | Some v => if bool_decide (trim v = "") then searchParams
              else searchParams ++ [(name, trim v)]
  | None => searchParams
  end.

Definition buildSapsUrl (params : SearchParams) : string :=
  let searchParams :=
    setParam "fiserial" (fiserial params)
      (setParam "fid" (fid params)
        (setParam "fsref" (fsref params)
          (setParam "fserial" (fserial params)
            (setParam "frid" (frid params)
              (setParam "fref" (fref params) []))))) in
  "https://www.saps.gov.za/services/firearm_status_enquiry.php?"
  +:+ join "&" (map (fun p => formUrlEncode p.1 +:+ "=" +:+ formUrlEncode p.2)
                   searchParams).

(** [cellValues[i] || fallback]. *)
Definition cellOr (cellValues : list string) (i : nat) (fallback : string) : string :=
  match cellValues !! i with
  | Some v => if bool_decide (v = "") then fallback else v
  | None => fallback
  end.

(** Lines 111-184: from the parsed document to the result. *)
Definition parseStatus (doc : Document) (dateApplied : string) (today : Date)
    : StatusFetchResult :=
  match table doc with
  | None =>
      if form doc then
        failure "No results found. Please verify your reference numbers are correct."
      else
        failure "No results table found on SAPS website. The page format may have changed."
  | Some rows =>
      if (length rows <=? 1)%nat then
        failure "No data rows found in results table. No matching applications found."
      else
        let dataCells := default [] (rows !! 1%nat) in
        let cellValues := map trim dataCells in
        if (length cellValues <? 10)%nat then
          failure ("Insufficient data columns found ("
                   +:+ numToString (Z.of_nat (length cellValues))
                   +:+ "/10). Make sure your information is correct.")
        else
          let applicationDate := parseDate dateApplied in
          let workingDaysPending := calculateWorkingDays applicationDate today in
          let isOverdue := 90 <? workingDaysPending in
          {| success := true;
             status := Some
               {| FirearmStatus.type := cellOr cellValues 0 "Unknown";
                  FirearmStatus.number := cellOr cellValues 1 "Unknown";
                  FirearmStatus.calibre := cellOr cellValues 3 "Unknown";
                  FirearmStatus.make := cellOr cellValues 4 "Unknown";
                  FirearmStatus.status := cellOr cellValues 7 "Unknown";
                  FirearmStatus.description :=
                    cellOr cellValues 8 "No description available";
                  FirearmStatus.nextStep :=
                    cellOr cellValues 9 "No next step information";
                  FirearmStatus.workingDaysPending := workingDaysPending;
                  FirearmStatus.isOverdue := isOverdue |};
             error := None |}
  end.

(** The [catch] of [fetchFirearmStatus]. *)
Definition catchError (message : string) : StatusFetchResult :=
  if includes message "timeout" then
    failure "Request timeout: SAPS website is taking too long to respond. Please try again."
  else if includes message "Network" then
    failure "Network error: Please check your internet connection and try again."
  else if includes message "proxy" then
    failure "Connection error: Unable to access SAPS website. Please try again later."
  else failure message.

(** The rest of the [try] block after [fetchWithProxy] has completed, and
    the [catch] when it has thrown. *)
Definition statusOf (fetched : Completion string) (dateApplied : string)
    (today : Date) : StatusFetchResult :=
  match fetched with
  | Returned html => parseStatus (parseFromString html) dateApplied today
  | Thrown message => catchError message
  end.

Definition fetchFirearmStatus (params : SearchParams) (dateApplied : string)
    (today : Date) : StatusFetchResult :=
  let sapsUrl := buildSapsUrl params in
  statusOf (fetchWithProxy sapsUrl).2 dateApplied today.

(** The HTML a response stands for: the [contents] member of the JSON
    envelope of allorigins, the body itself for the other proxies. *)
Definition normalizedHtml (proxy : string) (response : Response)
    : Completion (option string) :=
  if includes proxy "allorigins.win" then jsonContents (body response)
  else Returned (Some (body response)).

End Pipeline.

End StatusFetcher.

(** ** [services/notificationService.ts] *)

Module FirearmRecord.
Record t := mk {
  id : string;
  title : string;
  issueDate : string;
  section : string;
  expiryDate : string;
  make : option string;
  serialNumber : option string;
  notes : option string;
  createdAt : string;
}.
End FirearmRecord.

Module FirearmApplication.
Record t := mk {
  id : string;
  applicationRefNumber : string;
  idNumber : string;
  dateApplied : string;
  createdAt : string;
  searchMethod : option string;
  serialNumber : option string;
  gunReference : option string;
  title : option string;
}.
End FirearmApplication.

Module NotificationService.

(** The [extra] member of a notification. *)
Inductive Extra :=
  | FirearmExtra (firearmId : string) (daysToExpiry : Z)
  | ApplicationExtra (applicationId : string) (workingDays : Z)
  | TestExtra.

(** [LocalNotificationSchema], with the members the service sets ([sound]
    and [attachments] are undefined and [actionTypeId] is empty). *)
Record LocalNotificationSchema := {
  id : Z;
  title : string;
  body : string;
  schedule_at : Date;
  extra : Extra;
}.

Record NotificationSchedule := {
  firearmId : string;
  firearmTitle : string;
  expiryDate : string;
  notificationIds : list Z;
}.

Record ApplicationNotificationSchedule := {
  applicationId : string;
  applicationRef : string;
  notificationId : Z;
}.

(** The service object, the two [localStorage] items it owns, and the
    notifications registered with the native capability, by identifier. *)
Record Service := {
  notificationCounter : Z;
  storedSchedule : list NotificationSchedule;
  storedApplicationSchedule : list ApplicationNotificationSchedule;
  pending : gmap Z LocalNotificationSchema;
  isNativePlatform : bool;
}.

Definition initial (native : bool) : Service :=
  {| notificationCounter := 1000;
     storedSchedule := [];
     storedApplicationSchedule := [];
     pending := ∅;
     isNativePlatform := native |}.

(** *** The native capability

    [LocalNotifications.schedule] registers each notification under its
    identifier and replaces one registered under the same identifier;
    [LocalNotifications.cancel] removes the identifiers it is given.  Both
    calls are taken to succeed. *)

Definition registerAll (notifications : list LocalNotificationSchema)
    (registered : gmap Z LocalNotificationSchema) : gmap Z LocalNotificationSchema :=
  foldl (fun m n => <[id n := n]> m) registered notifications.

Definition removeAll (ids : list Z)
    (registered : gmap Z LocalNotificationSchema) : gmap Z LocalNotificationSchema :=
  foldl (fun m k => delete k m) registered ids.

Definition LocalNotifications_schedule (notifications : list LocalNotificationSchema)
    (s : Service) : Service :=
  {| notificationCounter := notificationCounter s;
     storedSchedule := storedSchedule s;
     storedApplicationSchedule := storedApplicationSchedule s;
     pending := registerAll notifications (pending s);
     isNativePlatform := isNativePlatform s |}.

Definition LocalNotifications_cancel (ids : list Z) (s : Service) : Service :=
  {| notificationCounter := notificationCounter s;
     storedSchedule := storedSchedule s;
     storedApplicationSchedule := storedApplicationSchedule s;
     pending := removeAll ids (pending s);
     isNativePlatform := isNativePlatform s |}.

(** *** The service *)

Definition getNextNotificationId (s : Service) : Z * Service :=
  (notificationCounter s,
   {| notificationCounter := notificationCounter s + 1;
      storedSchedule := storedSchedule s;
      storedApplicationSchedule := storedApplicationSchedule s;
      pending := pending s;
      isNativePlatform := isNativePlatform s |}).

Definition saveSchedule (schedule : list NotificationSchedule) (s : Service) : Service :=
  {| notificationCounter := notificationCounter s;
     storedSchedule := schedule;
     storedApplicationSchedule := storedApplicationSchedule s;
     pending := pending s;
     isNativePlatform := isNativePlatform s |}.

Definition loadSchedule (s : Service) : list NotificationSchedule := storedSchedule s.

Definition saveApplicationSchedule (schedule : list ApplicationNotificationSchedule)
    (s : Service) : Service :=
  {| notificationCounter := notificationCounter s;
     storedSchedule := storedSchedule s;
     storedApplicationSchedule := schedule;
     pending := pending s;
     isNativePlatform := isNativePlatform s |}.

Definition loadApplicationSchedule (s : Service) : list ApplicationNotificationSchedule :=
  storedApplicationSchedule s.

(** Notification intervals (days before expiry). *)
Definition intervals : list Z := [365; 180; 90; 60; 30; 14; 7; 3; 1].

Definition firearmTitle_for (days : Z) : string :=
  if 365 <=? days then "Firearm License Expiry - 1 Year Notice"
  else if 90 <=? days then "Firearm License Expiry - " +:+ numToString days +:+ " Days"
  else if 30 <=? days then "Firearm License Expiry - " +:+ numToString days +:+ " Days"
  else if 7 <=? days then
    "URGENT: Firearm License Expiry - " +:+ numToString days +:+ " Days"
  else "CRITICAL: Firearm License Expiry - " +:+ numToString days +:+ " Day"
       +:+ (if bool_decide (days <> 1) then "s" else "").

Definition firearmBody_for (firearm : FirearmRecord.t) (days : Z) : string :=
  let name := FirearmRecord.title firearm in
  let expiry := FirearmRecord.expiryDate firearm in
  if 365 <=? days then
    name +:+ " expires in 1 year (" +:+ expiry
    +:+ "). Consider starting renewal process."
  else if 90 <=? days then
    name +:+ " expires in " +:+ numToString days +:+ " days (" +:+ expiry
    +:+ "). Time to start renewal."
  else if 30 <=? days then
    name +:+ " expires in " +:+ numToString days +:+ " days (" +:+ expiry
    +:+ "). Renewal required!"
  else if 7 <=? days then
    name +:+ " expires in " +:+ numToString days +:+ " days (" +:+ expiry
    +:+ "). Renewal URGENT!"
  else
    name +:+ " expires "
    +:+ (if bool_decide (days = 1) then "tomorrow"
         else "in " +:+ numToString days +:+ " days")
    +:+ " (" +:+ expiry +:+ "). IMMEDIATE ACTION REQUIRED!".

(** The notification pushed for one interval. *)
Definition firearmNotification (firearm : FirearmRecord.t) (notificationDate : Date)
    (days : Z) (id : Z) : LocalNotificationSchema :=
  {| id := id;
     title := firearmTitle_for days;
     body := firearmBody_for firearm days;
     schedule_at := notificationDate;
     extra := FirearmExtra (FirearmRecord.id firearm) days |}.

Section Service.
(** [new Date(s)] for the date strings of the records. *)
Variable parseDate : string -> Date.

Definition cancelFirearmNotifications (firearmId' : string) (s : Service) : Service :=
  if negb (isNativePlatform s) then s
  else
    let schedule := loadSchedule s in
    match List.find (fun e => bool_decide (firearmId e = firearmId')) schedule with
    | Some firearmSchedule =>
        if (0 <? length (notificationIds firearmSchedule))%nat then
          let s1 := LocalNotifications_cancel (notificationIds firearmSchedule) s in
          let updatedSchedule :=
            filter (fun e => firearmId e <> firearmId') schedule in
          saveSchedule updatedSchedule s1
        else s
    | None => s
    end.

(** The [for (const days of intervals)] loop: the notifications and the
    identifiers pushed, in order, and the service after the identifiers
    were drawn. *)
Fixpoint scheduleFirearm_loop (firearm : FirearmRecord.t) (expiryDate' today : Date)
    (intervals' : list Z) (s : Service)
    : list LocalNotificationSchema * list Z * Service :=
  match intervals' with
  | [] => ([], [], s)
  | days :: rest =>
      let notificationDate := setDate expiryDate' (getDate expiryDate' - days) in
      if today <? notificationDate then
        let '(id', s1) := getNextNotificationId s in
        let '(notifications, notificationIds', s2) :=
          scheduleFirearm_loop firearm expiryDate' today rest s1 in
        (firearmNotification firearm notificationDate days id' :: notifications,
         id' :: notificationIds', s2)
      else scheduleFirearm_loop firearm expiryDate' today rest s
  end.

Definition scheduleFirearmNotifications (firearm : FirearmRecord.t) (now : Date)
    (s : Service) : Service :=
  if negb (isNativePlatform s) then s
  else
    let s0 := cancelFirearmNotifications (FirearmRecord.id firearm) s in
    let expiryDate' := parseDate (FirearmRecord.expiryDate firearm) in
    let today := now in
    let '(notifications, notificationIds', s1) :=
      scheduleFirearm_loop firearm expiryDate' today intervals s0 in
    if (0 <? length notifications)%nat then
      let s2 := LocalNotifications_schedule notifications s1 in
      let schedule := loadSchedule s2 in
      let newSchedule :=
        {| firearmId := FirearmRecord.id firearm;
           firearmTitle := FirearmRecord.title firearm;
           expiryDate := FirearmRecord.expiryDate firearm;
           notificationIds := notificationIds' |} in
      match list_find (fun e => firearmId e = FirearmRecord.id firearm) schedule with
      | Some (existingIndex, _) =>
          saveSchedule (<[existingIndex := newSchedule]> schedule) s2
      | None => saveSchedule (schedule ++ [newSchedule]) s2
      end
    else s1.

Definition cancelAllNotifications (s : Service) : Service :=
  if negb (isNativePlatform s) then s
  else
    let schedule := loadSchedule s in
    let allIds := concat (map notificationIds schedule) in
    let s1 := if (0 <? length allIds)%nat then LocalNotifications_cancel allIds s
              else s in
    saveSchedule [] s1.

Definition rescheduleAllFirearms (firearms : list FirearmRecord.t) (now : Date)
    (s : Service) : Service :=
  foldl (fun s' firearm => scheduleFirearmNotifications firearm now s')
    (cancelAllNotifications s) firearms.

Definition scheduleTestNotification (now : Date) (s : Service) : Service :=
  if negb (isNativePlatform s) then s
  else
    let '(id', s1) := getNextNotificationId s in
    let testDate := now + 10000 in
    LocalNotifications_schedule
      [ {| id := id';
           title := "Test Notification";
           body := "If you see this, notifications are working correctly!";
           schedule_at := testDate;
           extra := TestExtra |} ] s1.

Definition cancelAllApplicationNotifications (s : Service) : Service :=
  if negb (isNativePlatform s) then s
  else
    let schedule := loadApplicationSchedule s in
    let allIds := map notificationId schedule in
    let s1 := if (0 <? length allIds)%nat then LocalNotifications_cancel allIds s
              else s in
    saveApplicationSchedule [] s1.

(** The notification pushed for an application with [workingDaysPending]
    at least 88. *)
Definition applicationNotification (app : FirearmApplication.t) (now : Date)
    (workingDaysPending : Z) (id' : Z) : LocalNotificationSchema :=
  let notificationDate :=
    if 90 <=? workingDaysPending then now + 60000
    else now + (92 - workingDaysPending) * 24 * 60 * 60 * 1000 in
  let daysText :=
    if 90 <=? workingDaysPending then numToString workingDaysPending +:+ " working days"
    else "90+ working days" in
  {| id := id';
     title := "Application Pending Alert";
     body := "Your firearm application " +:+ FirearmApplication.applicationRefNumber app
             +:+ " has been pending for " +:+ daysText
             +:+ ". Consider following up with SAPS.";
     schedule_at := notificationDate;
     extra := ApplicationExtra (FirearmApplication.id app) workingDaysPending |}.

(** The [for (const app of applications)] loop; [new Date()] and
    [Date.now()] are read as the same instant [now]. *)
Fixpoint scheduleApplication_loop (applications : list FirearmApplication.t)
    (now : Date) (s : Service)
    : list LocalNotificationSchema * list ApplicationNotificationSchedule * Service :=
  match applications with
  | [] => ([], [], s)
  | app :: rest =>
      let applicationDate := parseDate (FirearmApplication.dateApplied app) in
      let today := now in
      let workingDaysPending := calculateWorkingDays applicationDate today in
      if 88 <=? workingDaysPending then
        let '(id', s1) := getNextNotificationId s in
        let '(notifications, schedule, s2) := scheduleApplication_loop rest now s1 in
        (applicationNotification app now workingDaysPending id' :: notifications,
         {| applicationId := FirearmApplication.id app;
            applicationRef := FirearmApplication.applicationRefNumber app;
            notificationId := id' |} :: schedule,
         s2)
      else scheduleApplication_loop rest now s
  end.

Definition scheduleApplicationNotifications (applications : list FirearmApplication.t)
    (now : Date) (s : Service) : Service :=
  if negb (isNativePlatform s) then s
  else
    let s0 := cancelAllApplicationNotifications s in
    let '(notifications, schedule, s1) := scheduleApplication_loop applications now s0 in
    if (0 <? length notifications)%nat then
      saveApplicationSchedule schedule (LocalNotifications_schedule notifications s1)
    else s1.

Definition cancelApplicationNotification (applicationId' : string) (s : Service)
    : Service :=
  if negb (isNativePlatform s) then s
  else
    let schedule := loadApplicationSchedule s in
    match List.find (fun a => bool_decide (applicationId a = applicationId')) schedule with
    | Some applicationSchedule =>
        let s1 := LocalNotifications_cancel [notificationId applicationSchedule] s in
        let updatedSchedule :=
          filter (fun a => applicationId a <> applicationId') schedule in
        saveApplicationSchedule updatedSchedule s1
    | None => s
    end.

(** *** The states the service can be in

    From a fresh service object and empty storage, by any sequence of
    calls of the public methods. *)
Inductive reachable : Service -> Prop :=
  | reachable_initial native : reachable (initial native)
  | reachable_scheduleFirearm firearm now s :
      reachable s -> reachable (scheduleFirearmNotifications firearm now s)
  | reachable_cancelFirearm firearmId' s :
      reachable s -> reachable (cancelFirearmNotifications firearmId' s)
  | reachable_cancelAll s :
      reachable s -> reachable (cancelAllNotifications s)
  | reachable_test now s :
      reachable s -> reachable (scheduleTestNotification now s)
  | reachable_scheduleApplications applications now s :
      reachable s -> reachable (scheduleApplicationNotifications applications now s)
  | reachable_cancelAllApplications s :
      reachable s -> reachable (cancelAllApplicationNotifications s)
  | reachable_cancelApplication applicationId' s :
      reachable s -> reachable (cancelApplicationNotification applicationId' s).

(** *** What the specification speaks of *)

(** The offsets whose reminder instant is strictly after [now]. *)
Definition applicableIntervals (expiry now : Date) : list Z :=
  List.filter (fun days => now <? expiry - days * msPerDay) intervals.

(** The reminders registered for the firearm [firearmId'], by identifier. *)
Definition remindsOf (firearmId' : string) (n : LocalNotificationSchema) : bool :=
  match extra n with
  | FirearmExtra f _ => bool_decide (f = firearmId')
  | _ => false
  end.

Definition liveReminders (firearmId' : string) (s : Service)
    : gmap Z LocalNotificationSchema :=
  filter (fun kn => remindsOf firearmId' kn.2 = true) (pending s).

(** The applications that get a reminder. *)
Definition dueApplications (applications : list FirearmApplication.t) (now : Date)
    : list FirearmApplication.t :=
  List.filter
    (fun app => 88 <=? calculateWorkingDays
                         (parseDate (FirearmApplication.dateApplied app)) now)
    applications.

(** The service with its counter set to [c]. *)
Definition withCounter (c : Z) (s : Service) : Service :=
  {| notificationCounter := c;
     storedSchedule := storedSchedule s;
     storedApplicationSchedule := storedApplicationSchedule s;
     pending := pending s;
     isNativePlatform := isNativePlatform s |}.

(** The reminders of a firearm for a list of offsets, numbered from [c]. *)
Definition firearmReminders (firearm : FirearmRecord.t) (expiry : Date)
    (offsets : list Z) (c : Z) : list LocalNotificationSchema :=
  zip_with
    (fun days k => firearmNotification firearm (expiry - days * msPerDay) days k)
    offsets (seqZ c (Z.of_nat (length offsets))).

(** The reminders of a list of applications, numbered from [c]. *)
Definition applicationReminders (apps : list FirearmApplication.t) (now : Date)
    (c : Z) : list LocalNotificationSchema :=
  zip_with
    (fun app k =>
       applicationNotification app now
         (calculateWorkingDays (parseDate (FirearmApplication.dateApplied app)) now) k)
    apps (seqZ c (Z.of_nat (length apps))).

Definition applicationEntries (apps : list FirearmApplication.t) (c : Z)
    : list ApplicationNotificationSchedule :=
  zip_with
    (fun app k =>
       {| applicationId := FirearmApplication.id app;
          applicationRef := FirearmApplication.applicationRefNumber app;
          notificationId := k |})
    apps (seqZ c (Z.of_nat (length apps))).

(** *** The consistency of the persisted schedules with the capability

    The firearm schedule matches the capability: each firearm has at most
    one entry and an entry has identifiers; a registered firearm reminder is
    tracked by the entry of its firearm, and a tracked identifier is
    registered as a reminder of that firearm. *)
Record tracking (s : Service) : Prop := {
  tracking_distinct : NoDup (firearmId <$> storedSchedule s);
  tracking_nonempty : forall e, e ∈ storedSchedule s -> notificationIds e <> [];
  tracking_tracked : forall k n f d,
      pending s !! k = Some n -> extra n = FirearmExtra f d ->
      exists e, e ∈ storedSchedule s /\ firearmId e = f /\ k ∈ notificationIds e;
  tracking_live : forall e k,
      e ∈ storedSchedule s -> k ∈ notificationIds e ->
      exists n d, pending s !! k = Some n /\ extra n = FirearmExtra (firearmId e) d;
}.

(** The same with, in addition, every registered notification registered
    under its own identifier, below the counter, and the application
    schedule matching the capability. *)
Record consistent (s : Service) : Prop := {
  entries_distinct : NoDup (firearmId <$> storedSchedule s);
  entries_nonempty : forall e, e ∈ storedSchedule s -> notificationIds e <> [];
  application_ids_distinct : NoDup (notificationId <$> storedApplicationSchedule s);
  pending_ids : forall k n, pending s !! k = Some n ->
                  id n = k /\ k < notificationCounter s;
  firearm_tracked : forall k n f d,
      pending s !! k = Some n -> extra n = FirearmExtra f d ->
      exists e, e ∈ storedSchedule s /\ firearmId e = f /\ k ∈ notificationIds e;
  firearm_live : forall e k,
      e ∈ storedSchedule s -> k ∈ notificationIds e ->
      exists n d, pending s !! k = Some n /\ extra n = FirearmExtra (firearmId e) d;
  application_live : forall a,
      a ∈ storedApplicationSchedule s ->
      exists n f w, pending s !! notificationId a = Some n
                    /\ extra n = ApplicationExtra f w;
}.

End Service.

End NotificationService.

(** ** A sample network and results page, for the examples *)

Module Samples.
Import JSString StatusFetcher.

(** codetabs answers with the page, corsproxy.io refuses, allorigins sends
    an envelope without [contents] and cors-anywhere times out. *)
Definition fetch (r : Request) : FetchOutcome :=
  if includes (url r) "codetabs" then
    Responded {| httpStatus := 200; statusText := "OK"; body := "<html>results</html>" |}
  else if includes (url r) "allorigins" then
    Responded {| httpStatus := 200; statusText := "OK"; body := "{}" |}
  else if includes (url r) "corsproxy" then
    Responded {| httpStatus := 403; statusText := "Forbidden"; body := "denied" |}
  else Rejected "The operation timed out.".

Definition jsonContents (body : string) : Completion (option string) :=
  Returned None.

Definition row : list string :=
  [ "Licence "; "A123"; "unused"; ""; "Glock"; "x"; "y"; " Approved"; "  "; "Collect" ].

Definition page : Document :=
  {| table := Some [ []; row ]; form := true |}.

Definition parseFromString (html : string) : Document := page.

Definition parseDate (s : string) : Date := at_ 2024 1 2 7200000.

Definition params : SearchParams :=
  {| fref := Some "A123"; frid := Some "8001015009087"; fserial := None;
     fsref := None; fid := None; fiserial := None |}.

Definition today : Date := at_ 2024 5 17 36000000.

Definition gun : FirearmRecord.t :=
  FirearmRecord.mk "f1" "Glock 19" "2019-01-02" "13" "2024-01-02" None None None
    "2023-01-01T10:00:00.000Z".

Definition rifle : FirearmRecord.t :=
  FirearmRecord.mk "f2" "CZ 550" "2014-01-02" "16" "2024-01-02" None None None
    "2023-01-01T10:05:00.000Z".

Definition application : FirearmApplication.t :=
  FirearmApplication.mk "a1" "A123" "8001015009087" "2024-01-02"
    "2024-01-03T08:00:00.000Z" None None None None.

(** Ten days before the expiry date that [parseDate] returns. *)
Definition tenDaysBefore : Date := at_ 2023 12 23 7200000.

End Samples.

(** ** The calendar conversions are inverse to each other *)

Ltac euclid := Z.to_euclidean_division_equations; lia.

Lemma yearOfEra_bounds doe :
  0 <= doe < 146097 ->
  let yoe := (doe - doe / 1460 + doe / 36524 - doe / 146096) / 365 in
  let doy := doe - (365 * yoe + yoe / 4 - yoe / 100) in
  0 <= yoe < 400 /\ 0 <= doy < 366.
Proof. intros H; cbv zeta; euclid. Qed.

Lemma monthOfYear_bounds doy :
  0 <= doy < 366 ->
  let mp := (5 * doy + 2) / 153 in
  0 <= mp < 12 /\ 1 <= doy - (153 * mp + 2) / 5 + 1 <= 31.
Proof. intros H; cbv zeta; euclid. Qed.

Lemma civilFromDays_spec z :
  let '(y, m, d) := civilFromDays z in
  daysFromCivil y m d = z /\ 1 <= m <= 12 /\ 1 <= d <= 31.
Proof.
  unfold civilFromDays.
  set (z' := z + 719468).
  set (era := z' / 146097). set (doe := z' mod 146097).
  assert (Hdoe : 0 <= doe < 146097) by (apply Z.mod_pos_bound; lia).
  assert (Hz : z' = 146097 * era + doe) by (apply Z.div_mod; lia).
  pose proof (yearOfEra_bounds doe Hdoe) as Hy. cbv zeta in Hy.
  set (yoe := (doe - doe / 1460 + doe / 36524 - doe / 146096) / 365) in *.
  set (doy := doe - (365 * yoe + yoe / 4 - yoe / 100)) in *.
  destruct Hy as [Hyoe Hdoy].
  pose proof (monthOfYear_bounds doy Hdoy) as Hm. cbv zeta in Hm.
  set (mp := (5 * doy + 2) / 153) in *.
  destruct Hm as [Hmp Hd].
  assert (Hera : forall a, a = yoe + era * 400 -> a / 400 = era /\ a mod 400 = yoe)
    by (intros a ->; euclid).
  unfold daysFromCivil.
  destruct (Z.ltb_spec mp 10) as [Hlt|Hge].
  - replace (mp + 3 <=? 2) with false by (symmetry; apply Z.leb_gt; lia).
    replace (2 <? mp + 3) with true by (symmetry; apply Z.ltb_lt; lia).
    destruct (Hera _ eq_refl) as [-> ->].
    replace (mp + 3 - 3) with mp by lia.
    split; [|lia]. unfold doy in *. unfold z' in Hz. lia.
  - replace (mp - 9 <=? 2) with true by (symmetry; apply Z.leb_le; lia).
    replace (2 <? mp - 9) with false by (symmetry; apply Z.ltb_ge; lia).
    replace (yoe + era * 400 + 1 - 1) with (yoe + era * 400) by lia.
    destruct (Hera _ eq_refl) as [-> ->].
    replace (mp - 9 + 9) with mp by lia.
    split; [|lia]. unfold doy in *. unfold z' in Hz. lia.
Qed.

Lemma daysFromCivil_getters t :
  daysFromCivil (getFullYear t) (getMonth t + 1) (getDate t) = Day t
  /\ 0 <= getMonth t <= 11 /\ 1 <= getDate t <= 31.
Proof.
  unfold getFullYear, getMonth, getDate.
  pose proof (civilFromDays_spec (Day t)) as H.
  destruct (civilFromDays (Day t)) as [[y m] d]; cbn [fst snd].
  replace (m - 1 + 1) with m by lia. lia.
Qed.

Lemma daysFromCivil_linear y m d k :
  daysFromCivil y m (d + k) = daysFromCivil y m d + k.
Proof. unfold daysFromCivil; cbv zeta; lia. Qed.

Lemma daysFromCivil_april y d :
  daysFromCivil y 4 d = daysFromCivil y 3 (d + 31).
Proof.
  unfold daysFromCivil. cbv zeta.
  change (4 <=? 2) with false; change (3 <=? 2) with false.
  change (2 <? 4) with true; change (2 <? 3) with true.
  cbv beta iota.
  change ((153 * (4 - 3) + 2) / 5) with 31.
  change ((153 * (3 - 3) + 2) / 5) with 0.
  lia.
Qed.

Lemma Day_MakeDate day time :
  0 <= time < msPerDay -> Day (MakeDate day time) = day.
Proof. unfold Day, MakeDate, msPerDay; intros; euclid. Qed.

Lemma MakeDate_Day t : MakeDate (Day t) (TimeWithinDay t) = t.
Proof. unfold Day, MakeDate, TimeWithinDay, msPerDay; euclid. Qed.

(** [t.setDate(t.getDate() + k)] moves [t] by exactly [k] days. *)
Lemma setDate_getDate t k : setDate t (getDate t + k) = t + k * msPerDay.
Proof.
  unfold setDate, MakeDay.
  destruct (daysFromCivil_getters t) as (Hd & Hm & _).
  rewrite (Z.div_small (getMonth t) 12), (Z.mod_small (getMonth t) 12) by lia.
  rewrite Z.add_0_r.
  pose proof (daysFromCivil_linear (getFullYear t) (getMonth t + 1) 1
                (getDate t - 1)) as H1.
  replace (1 + (getDate t - 1)) with (getDate t) in H1 by lia.
  replace (daysFromCivil (getFullYear t) (getMonth t + 1) 1 + (getDate t + k) - 1)
    with (Day t + k) by lia.
  pose proof (MakeDate_Day t) as E. unfold MakeDate in *.
  rewrite Z.mul_add_distr_r. lia.
Qed.

Lemma Day_add_days t k : Day (t + k * msPerDay) = Day t + k.
Proof. unfold Day, msPerDay; euclid. Qed.

Lemma civilFromDays_spring y x :
  1 <= x <= 61 ->
  civilFromDays (daysFromCivil y 3 x)
  = (y, if x <=? 31 then 3 else 4, if x <=? 31 then x else x - 31).
Proof.
  intros Hx.
  set (era := y / 400). set (yoe := y mod 400).
  assert (Hyoe : 0 <= yoe < 400) by (apply Z.mod_pos_bound; lia).
  assert (Hy : y = 400 * era + yoe) by (apply Z.div_mod; lia).
  set (doe := yoe * 365 + yoe / 4 - yoe / 100 + (x - 1)).
  assert (E : daysFromCivil y 3 x + 719468 = doe + era * 146097).
  { unfold daysFromCivil. cbv zeta.
    change (3 <=? 2) with false; change (2 <? 3) with true. cbv beta iota.
    change ((153 * (3 - 3) + 2) / 5) with 0. fold era yoe. unfold doe. lia. }
  assert (Hdoe : 0 <= doe < 146097) by (unfold doe; euclid).
  unfold civilFromDays. cbv zeta. rewrite E.
  rewrite Z.div_add, Z.mod_add by lia.
  rewrite (Z.div_small doe), (Z.mod_small doe) by lia. rewrite Z.add_0_l.
  assert (Hq : (doe - doe / 1460 + doe / 36524 - doe / 146096) / 365 = yoe)
    by (unfold doe; euclid).
  rewrite Hq.
  replace (doe - (365 * yoe + yoe / 4 - yoe / 100)) with (x - 1) by (unfold doe; lia).
  destruct (Z.leb_spec x 31) as [Hle|Hgt].
  - replace ((5 * (x - 1) + 2) / 153) with 0 by euclid.
    change (0 <? 10) with true. cbv iota.
    change (0 + 3) with 3. change (3 <=? 2) with false.
    change ((153 * 0 + 2) / 5) with 0. cbv iota.
    f_equal; [f_equal|]; lia.
  - replace ((5 * (x - 1) + 2) / 153) with 1 by euclid.
    change (1 <? 10) with true. cbv iota.
    change (1 + 3) with 4. change (4 <=? 2) with false.
    change ((153 * 1 + 2) / 5) with 31. cbv iota.
    f_equal; [f_equal|]; lia.
Qed.

(** ** [utils/holidays.ts]: examples *)

Example easter_2024 : getEasterDate 2024 = at_ 2024 3 31 0.
Proof. vm_compute. reflexivity. Qed.

Example good_friday_2024 : isWorkingDay (at_ 2024 3 29 36000000) = false.
Proof. vm_compute. reflexivity. Qed.

Example wd_january_2024 :
  calculateWorkingDays (at_ 2024 1 1 0) (at_ 2024 1 31 0) = 22.
Proof. vm_compute. reflexivity. Qed.

Example wd_time_of_day :
  calculateWorkingDays (at_ 2024 1 15 36000000) (at_ 2024 1 16 32400000) = 1.
Proof. vm_compute. reflexivity. Qed.

(** ** [calculateWorkingDays] *)

Lemma daySteps_cons current endDate :
  current <= endDate ->
  daySteps current endDate = current :: daySteps (current + msPerDay) endDate.
Proof.
  intros Hle. unfold daySteps.
  replace (current <=? endDate) with true by (symmetry; apply Z.leb_le; lia).
  assert (Hq : 0 <= (endDate - current) / msPerDay)
    by (apply Z.div_pos; unfold msPerDay; lia).
  replace (Z.to_nat ((endDate - current) / msPerDay + 1))
    with (S (Z.to_nat ((endDate - current) / msPerDay))) by lia.
  cbn [seq map]. f_equal; [lia|].
  rewrite <- seq_shift, map_map.
  destruct (Z.leb_spec (current + msPerDay) endDate) as [Hle'|Hgt].
  - replace ((endDate - (current + msPerDay)) / msPerDay + 1)
      with ((endDate - current) / msPerDay) by (unfold msPerDay; euclid).
    apply map_ext; intros k; lia.
  - replace ((endDate - current) / msPerDay) with 0
      by (unfold msPerDay in *; euclid).
    reflexivity.
Qed.

Lemma daySteps_nil current endDate :
  endDate < current -> daySteps current endDate = [].
Proof.
  intros Hlt. unfold daySteps.
  replace (current <=? endDate) with false by (symmetry; apply Z.leb_gt; lia).
  reflexivity.
Qed.

Lemma daySteps_length current endDate :
  (length (daySteps current endDate) < calculateWorkingDays_fuel current endDate)%nat.
Proof.
  unfold daySteps, calculateWorkingDays_fuel.
  destruct (current <=? endDate); [rewrite length_map, length_seq|cbn]; lia.
Qed.

(** What the instants of [daySteps] are: [start] moved by whole days, as long
    as the result is not after [end]. *)
Lemma daySteps_spec startDate endDate t :
  t ∈ daySteps startDate endDate
  <-> exists k, 0 <= k /\ t = startDate + k * msPerDay /\ t <= endDate.
Proof.
  unfold daySteps. destruct (Z.leb_spec startDate endDate) as [Hle|Hgt].
  - rewrite list_elem_of_fmap. setoid_rewrite elem_of_seq. split.
    + intros (k & -> & Hk). exists (Z.of_nat k). split; [lia|split; [done|]].
      assert (Z.of_nat k <= (endDate - startDate) / msPerDay) by lia.
      unfold msPerDay in *. euclid.
    + intros (k & Hk & -> & Hle'). exists (Z.to_nat k). split; [by rewrite Z2Nat.id by lia|].
      assert (k <= (endDate - startDate) / msPerDay)
        by (unfold msPerDay in *; euclid).
      lia.
  - split; [intros H; inversion H|].
    intros (k & Hk & -> & Hle). unfold msPerDay in *. lia.
Qed.

Lemma calculateWorkingDays_loop_steps endDate :
  forall (steps : list Date) current workingDays fuel,
    steps = daySteps current endDate ->
    (length steps < fuel)%nat ->
    calculateWorkingDays_loop fuel current endDate workingDays
    = Some (workingDays + countWorking isWorkingDay steps).
Proof.
  induction steps as [|t steps IH]; intros current workingDays fuel Hs Hfuel.
  - destruct fuel as [|fuel]; [cbn in Hfuel; lia|]. cbn [calculateWorkingDays_loop].
    destruct (Z.leb_spec current endDate) as [Hle|Hgt].
    + rewrite daySteps_cons in Hs by done. discriminate.
    + unfold countWorking. cbn. f_equal. lia.
  - destruct fuel as [|fuel]; [cbn in Hfuel; lia|]. cbn [calculateWorkingDays_loop].
    destruct (Z.leb_spec current endDate) as [Hle|Hgt].
    2:{ rewrite daySteps_nil in Hs by lia. discriminate. }
    rewrite daySteps_cons in Hs by done. injection Hs as -> Hs.
    rewrite setDate_getDate, Z.mul_1_l.
    rewrite (IH _ _ fuel Hs) by (cbn in Hfuel; lia).
    f_equal. unfold countWorking. cbn [List.filter].
    destruct (isWorkingDay current); cbn [length]; lia.
Qed.

(** [isWorkingDay] only reads the calendar day of its argument. *)
Lemma isWorkingDay_Day t : isWorkingDay t = isWorkingDayNumber (Day t).
Proof.
  assert (HD : Day (MakeDate (Day t) 0) = Day t)
    by (apply Day_MakeDate; unfold msPerDay; lia).
  unfold isWorkingDayNumber, isWorkingDay, isWeekend, isPublicHoliday,
    getEasterBasedHolidays, formatMMdd, getFullYear, getMonth, getDate, getDay.
  rewrite HD. reflexivity.
Qed.

Lemma daySteps_calendarDays startDate endDate :
  TimeWithinDay startDate <= TimeWithinDay endDate ->
  map Day (daySteps startDate endDate) = calendarDays startDate endDate.
Proof.
  intros Htod. unfold daySteps, calendarDays.
  destruct (Z.leb_spec startDate endDate) as [Hle|Hgt].
  - rewrite map_map.
    replace ((endDate - startDate) / msPerDay) with (Day endDate - Day startDate)
      by (unfold Day, TimeWithinDay, msPerDay in *; euclid).
    apply map_ext; intros k. apply Day_add_days.
  - replace (Z.to_nat (Day endDate - Day startDate + 1)) with O
      by (unfold Day, TimeWithinDay, msPerDay in *; euclid).
    reflexivity.
Qed.

Lemma countWorking_map_Day l :
  countWorking isWorkingDay l = countWorking isWorkingDayNumber (map Day l).
Proof.
  unfold countWorking. f_equal.
  induction l as [|t l IH]; [done|]. cbn [map List.filter].
  rewrite <- isWorkingDay_Day. destruct (isWorkingDay t); cbn [length]; lia.
Qed.



(** ** [isWorkingDay] and the holiday calendar *)

Lemma readMonthDay_fmtMonthDay m d :
  1 <= m <= 12 -> 1 <= d <= 31 -> readMonthDay (fmtMonthDay (m, d)) = Some (m, d).
Proof.
  intros Hm Hd.
  assert (Hall : forallb (fun m => forallb (fun d =>
            bool_decide (readMonthDay (fmtMonthDay (m, d)) = Some (m, d)))
            (map Z.of_nat (seq 1 31))) (map Z.of_nat (seq 1 12)) = true)
    by (vm_compute; reflexivity).
  rewrite forallb_forall in Hall.
  specialize (Hall m). rewrite forallb_forall in Hall.
  eapply bool_decide_eq_true_1. apply Hall.
  - apply in_map_iff. exists (Z.to_nat m). split; [lia|]. apply in_seq. lia.
  - apply in_map_iff. exists (Z.to_nat d). split; [lia|]. apply in_seq. lia.
Qed.

Lemma fmtMonthDay_inj m d m' d' :
  1 <= m <= 12 -> 1 <= d <= 31 -> 1 <= m' <= 12 -> 1 <= d' <= 31 ->
  fmtMonthDay (m, d) = fmtMonthDay (m', d') -> m = m' /\ d = d'.
Proof.
  intros Hm Hd Hm' Hd' E. apply (f_equal readMonthDay) in E.
  rewrite !readMonthDay_fmtMonthDay in E by done. by injection E.
Qed.

Lemma formatMMdd_fmt t : formatMMdd t = fmtMonthDay (getMonth t + 1, getDate t).
Proof. reflexivity. Qed.

Lemma isWeekend_spec t : isWeekend t = true <-> getDay t = 6 \/ getDay t = 0.
Proof. unfold isWeekend. cbv zeta. rewrite orb_true_iff, !Z.eqb_eq. tauto. Qed.

Lemma includes_FIXED_HOLIDAYS t :
  arrayIncludes FIXED_HOLIDAYS (formatMMdd t) = true
  <-> (getMonth t + 1, getDate t) ∈ fixedHolidays.
Proof.
  destruct (daysFromCivil_getters t) as (_ & Hm & Hd).
  unfold arrayIncludes. rewrite bool_decide_eq_true, formatMMdd_fmt.
  change FIXED_HOLIDAYS with (fmtMonthDay <$> fixedHolidays).
  rewrite list_elem_of_fmap. split.
  - intros ([m d] & E & Hin).
    assert (Hr : 1 <= m <= 12 /\ 1 <= d <= 31).
    { unfold fixedHolidays in Hin. set_unfold in Hin.
      repeat destruct Hin as [Hin|Hin]; try (injection Hin as -> ->; lia); done. }
    apply fmtMonthDay_inj in E as [E1 E2]; [|lia..]. by rewrite E1, E2.
  - intros Hin. by eexists.
Qed.

Lemma computusMonthDay_spring y :
  0 <= y ->
  15 <= easterMarchDay y <= 57
  /\ computusMonthDay y
     = if easterMarchDay y <=? 31 then (3, easterMarchDay y)
       else (4, easterMarchDay y - 31).
Proof.
  intros Hy. unfold easterMarchDay, computusMonthDay. cbv zeta.
  set (a := y mod 19). set (b := y / 100). set (c := y mod 100).
  set (e := b mod 4). set (i := c / 4). set (k := c mod 4).
  set (h := (19 * a + b - b / 4 - (b - (b + 8) / 25 + 1) / 3 + 15) mod 30).
  set (l := (32 + 2 * e + 2 * i - h - k) mod 7).
  set (m := (a + 11 * h + 22 * l) / 451).
  assert (Ha : 0 <= a < 19) by (apply Z.mod_pos_bound; lia).
  assert (Hh : 0 <= h < 30) by (apply Z.mod_pos_bound; lia).
  assert (Hl : 0 <= l < 7) by (apply Z.mod_pos_bound; lia).
  assert (Hm : 0 <= m <= 1) by (unfold m; euclid).
  set (n := h + l - 7 * m + 114).
  assert (Hn : 107 <= n <= 149) by (unfold n, m in *; euclid).
  destruct (Z.le_gt_cases n 123) as [Hlo|Hhi].
  - replace (n / 31) with 3 by euclid. replace (n mod 31) with (n - 93) by euclid.
    replace ((3 - 3) * 31 + (n - 93 + 1)) with (n - 92) by lia.
    replace (n - 92 <=? 31) with true by (symmetry; apply Z.leb_le; lia).
    split; [lia|]. f_equal. lia.
  - replace (n / 31) with 4 by euclid. replace (n mod 31) with (n - 124) by euclid.
    replace ((4 - 3) * 31 + (n - 124 + 1)) with (n - 92) by lia.
    replace (n - 92 <=? 31) with false by (symmetry; apply Z.leb_gt; lia).
    split; [lia|]. f_equal. lia.
Qed.

Lemma daysFromCivil_springMonthDay y x :
  daysFromCivil y (springMonthDay x).1 (springMonthDay x).2 = daysFromCivil y 3 x.
Proof.
  unfold springMonthDay. destruct (x <=? 31); cbn [fst snd]; [done|].
  rewrite daysFromCivil_april. f_equal. lia.
Qed.

Lemma easterSunday_spring y :
  0 <= y -> easterSunday y = daysFromCivil y 3 (easterMarchDay y).
Proof.
  intros Hy. unfold easterSunday.
  destruct (computusMonthDay_spring y Hy) as [_ ->].
  rewrite <- daysFromCivil_springMonthDay. unfold springMonthDay.
  by destruct (easterMarchDay y <=? 31).
Qed.

(** On a year that is not negative the truncating [%] of [getEasterDate]
    agrees with the modulus of the computus. *)
Lemma getEasterDate_computus y :
  0 <= y ->
  getEasterDate y
  = newDate y ((computusMonthDay y).1 - 1) (computusMonthDay y).2.
Proof.
  intros Hy. unfold getEasterDate, computusMonthDay. cbv zeta. cbn [fst snd].
  rewrite (Z.rem_mod_nonneg y 19), (Z.rem_mod_nonneg y 100) by lia.
  set (a := y mod 19). set (b := y / 100). set (c := y mod 100).
  assert (Ha : 0 <= a < 19) by (apply Z.mod_pos_bound; lia).
  assert (Hb : 0 <= b) by (apply Z.div_pos; lia).
  assert (Hc : 0 <= c < 100) by (apply Z.mod_pos_bound; lia).
  rewrite (Z.rem_mod_nonneg b 4), (Z.rem_mod_nonneg c 4) by lia.
  set (e := b mod 4). set (i := c / 4). set (k := c mod 4).
  assert (He : 0 <= e < 4) by (apply Z.mod_pos_bound; lia).
  assert (Hk : 0 <= k < 4) by (apply Z.mod_pos_bound; lia).
  assert (Hi : 0 <= i) by (apply Z.div_pos; lia).
  rewrite (Z.rem_mod_nonneg (19 * a + b - b / 4 - (b - (b + 8) / 25 + 1) / 3 + 15) 30)
    by euclid.
  set (h := (19 * a + b - b / 4 - (b - (b + 8) / 25 + 1) / 3 + 15) mod 30).
  assert (Hh : 0 <= h < 30) by (apply Z.mod_pos_bound; lia).
  rewrite (Z.rem_mod_nonneg (32 + 2 * e + 2 * i - h - k) 7) by lia.
  set (l := (32 + 2 * e + 2 * i - h - k) mod 7).
  assert (Hl : 0 <= l < 7) by (apply Z.mod_pos_bound; lia).
  rewrite (Z.rem_mod_nonneg (h + l - 7 * ((a + 11 * h + 22 * l) / 451) + 114) 31)
    by euclid.
  reflexivity.
Qed.

Lemma newDate_spring y x :
  newDate y ((springMonthDay x).1 - 1) (springMonthDay x).2
  = MakeDate (daysFromCivil (if (0 <=? y) && (y <=? 99) then 1900 + y else y) 3 x) 0.
Proof.
  unfold newDate. cbv zeta. f_equal.
  set (yr := if (0 <=? y) && (y <=? 99) then 1900 + y else y).
  unfold MakeDay, springMonthDay. cbv zeta.
  destruct (x <=? 31); cbn [fst snd].
  - change ((3 - 1) / 12) with 0. change ((3 - 1) mod 12 + 1) with 3.
    rewrite Z.add_0_r.
    pose proof (daysFromCivil_linear yr 3 1 (x - 1)) as H.
    replace (1 + (x - 1)) with x in H by lia. lia.
  - change ((4 - 1) / 12) with 0. change ((4 - 1) mod 12 + 1) with 4.
    rewrite Z.add_0_r, daysFromCivil_april.
    pose proof (daysFromCivil_linear yr 3 (1 + 31) (x - 32)) as H.
    replace (1 + 31 + (x - 32)) with x in H by lia. lia.
Qed.

(** Month and day of the date [k] days away from the Easter Sunday that
    [getEasterDate] returns. *)
Lemma formatMMdd_easter_offset y k :
  0 <= y -> -2 <= k <= 1 ->
  formatMMdd (setDate (getEasterDate y) (getDate (getEasterDate y) + k))
  = fmtMonthDay (springMonthDay (easterMarchDay y + k)).
Proof.
  intros Hy Hk. destruct (computusMonthDay_spring y Hy) as [HX HE].
  rewrite setDate_getDate, formatMMdd_fmt. f_equal.
  rewrite getEasterDate_computus by done.
  assert (HS : computusMonthDay y = springMonthDay (easterMarchDay y))
    by (unfold springMonthDay; exact HE).
  rewrite HS, newDate_spring.
  set (yr := if (0 <=? y) && (y <=? 99) then 1900 + y else y).
  unfold getMonth, getDate. rewrite Day_add_days, Day_MakeDate by (unfold msPerDay; lia).
  rewrite <- daysFromCivil_linear, civilFromDays_spring by lia.
  unfold springMonthDay. cbn [fst snd].
  destruct (easterMarchDay y + k <=? 31); f_equal; lia.
Qed.

Lemma springMonthDay_range x :
  1 <= x <= 61 -> 1 <= (springMonthDay x).1 <= 12 /\ 1 <= (springMonthDay x).2 <= 31.
Proof.
  intros Hx. unfold springMonthDay.
  destruct (Z.leb_spec x 31); cbn [fst snd]; lia.
Qed.

(** A date of year [y] shows the month and day of Easter Sunday plus [k]
    days exactly when it lies [k] days after Easter Sunday of [y]. *)
Lemma includes_easter_offset t k :
  0 <= getFullYear t -> -2 <= k <= 1 ->
  formatMMdd t = fmtMonthDay (springMonthDay (easterMarchDay (getFullYear t) + k))
  <-> Day t = easterSunday (getFullYear t) + k.
Proof.
  intros Hy Hk. set (y := getFullYear t) in *.
  destruct (computusMonthDay_spring y Hy) as [HX _].
  destruct (daysFromCivil_getters t) as (HD & Hm & Hd). fold y in HD.
  rewrite easterSunday_spring, <- daysFromCivil_linear by done.
  set (x := easterMarchDay y + k) in *.
  destruct (springMonthDay_range x ltac:(lia)) as [Hm' Hd'].
  rewrite formatMMdd_fmt. split.
  - destruct (springMonthDay x) as [m' d'] eqn:E. cbn [fst snd] in *.
    intros H. apply fmtMonthDay_inj in H as [H1 H2]; [|lia..].
    rewrite <- HD, H1, H2, <- daysFromCivil_springMonthDay, E. done.
  - intros H. f_equal.
    pose proof (civilFromDays_spring y x ltac:(lia)) as C.
    rewrite <- H in C. unfold getMonth, getDate. rewrite C. cbn [fst snd].
    unfold springMonthDay. destruct (x <=? 31); f_equal; lia.
Qed.

Lemma isPublicHoliday_spec t :
  0 <= getFullYear t ->
  isPublicHoliday t = true
  <-> (getMonth t + 1, getDate t) ∈ fixedHolidays
      \/ Day t = easterSunday (getFullYear t) - 2
      \/ Day t = easterSunday (getFullYear t) + 1.
Proof.
  intros Hy. unfold isPublicHoliday. cbv zeta.
  rewrite <- includes_FIXED_HOLIDAYS.
  destruct (arrayIncludes FIXED_HOLIDAYS (formatMMdd t)); [tauto|].
  unfold getEasterBasedHolidays, arrayIncludes. cbv zeta.
  rewrite bool_decide_eq_true.
  replace (getDate (getEasterDate (getFullYear t)) - 2)
    with (getDate (getEasterDate (getFullYear t)) + -2) by lia.
  rewrite !formatMMdd_easter_offset by lia.
  rewrite !elem_of_cons, elem_of_nil.
  rewrite !includes_easter_offset by lia.
  replace (easterSunday (getFullYear t) + -2)
    with (easterSunday (getFullYear t) - 2) by lia.
  split; [intros [H|[H|[]]]|intros [H|[H|H]]]; auto. discriminate.
Qed.

(** The dates of Easter Sunday published for 2020-2030, as (year, month,
    day of month), against the computus and against [getEasterDate]. *)
Lemma easter_2020_2030 :
  Forall (fun '(y, m, d) =>
            computusMonthDay y = (m, d) /\ getEasterDate y = at_ y m d 0
            /\ getDay (getEasterDate y) = 0)
    [ (2020, 4, 12); (2021, 4, 4); (2022, 4, 17); (2023, 4, 9);
      (2024, 3, 31); (2025, 4, 20); (2026, 4, 5); (2027, 3, 28);
      (2028, 4, 16); (2029, 4, 1); (2030, 4, 21) ].
Proof. repeat constructor. Qed.

(** From 1900 to 2199 the date of the computus is a Sunday between
    22 March and 25 April. *)
Lemma easterSunday_is_sunday y :
  1900 <= y <= 2199 ->
  (easterSunday y + 4) mod 7 = 0 /\ 22 <= easterMarchDay y <= 56.
Proof.
  intros Hy.
  assert (Hall : forallb (fun y => ((easterSunday y + 4) mod 7 =? 0)
                                   && (22 <=? easterMarchDay y)
                                   && (easterMarchDay y <=? 56))
                   (seqZ 1900 300) = true) by (vm_compute; reflexivity).
  rewrite forallb_forall in Hall.
  specialize (Hall y ltac:(apply list_elem_of_In, elem_of_seqZ; lia)).
  apply andb_prop in Hall as [[H1%Z.eqb_eq H2%Z.leb_le]%andb_prop H3%Z.leb_le].
  lia.
Qed.

(** C2. On a date of a year that is not negative, [isWorkingDay] is false
    exactly on a Saturday, a Sunday, one of the ten fixed month-day pairs,
    the day two days before Easter Sunday (Good Friday) and the day after it
    (Family Day), Easter Sunday being the date the anonymous Gregorian
    computus gives for the year of the date.  For 2024 Easter Sunday is
    2024-03-31, Good Friday 2024-03-29 and Family Day 2024-04-01. *)
Theorem isWorkingDay_false_iff :
  (forall d : Date,
     0 <= getFullYear d ->
     isWorkingDay d = false
     <-> getDay d = 6 \/ getDay d = 0
         \/ (getMonth d + 1, getDate d) ∈ fixedHolidays
         \/ Day d = easterSunday (getFullYear d) - 2
         \/ Day d = easterSunday (getFullYear d) + 1)
  /\ getEasterDate 2024 = at_ 2024 3 31 0
  /\ easterSunday 2024 = daysFromCivil 2024 3 31
  /\ easterSunday 2024 - 2 = daysFromCivil 2024 3 29
  /\ easterSunday 2024 + 1 = daysFromCivil 2024 4 1
  /\ getEasterBasedHolidays 2024 = ["03-29"; "04-01"]%string.
Proof.
  split; [|by vm_compute].
  intros d Hy. unfold isWorkingDay.
  rewrite andb_false_iff, !negb_false_iff, isWeekend_spec,
    isPublicHoliday_spec by done.
  tauto.
Qed.

Lemma isWorkingDay_false_iff_witness :
  isWorkingDay (at_ 2024 3 29 36000000) = false
  /\ isWorkingDay (at_ 2024 4 1 0) = false
  /\ ~ (isWorkingDay (at_ 2024 4 2 0) = false).
Proof.
  destruct isWorkingDay_false_iff as [H _].
  split; [|split].
  - apply (H (at_ 2024 3 29 36000000)); [by vm_compute|].
    right; right; right; left. by vm_compute.
  - apply (H (at_ 2024 4 1 0)); [by vm_compute|].
    right; right; right; right. by vm_compute.
  - by vm_compute.
Defined.

(** ** [fetchWithProxy] *)

Import JSString StatusFetcher.

Section FetchWithProxy.
Variable fetch : Request -> FetchOutcome.
Variable jsonContents : string -> Completion (option string).
Variable sapsUrl : string.

Let attempt (proxy : string) : Completion string :=
  (tryProxy fetch jsonContents proxy sapsUrl).2.
Let request (proxy : string) : Request :=
  (tryProxy fetch jsonContents proxy sapsUrl).1.
Let fails (proxy : string) : Prop := exists message, attempt proxy = Thrown message.

Lemma fetchWithProxy_loop_cons_fail proxy proxies message lastError :
  attempt proxy = Thrown message ->
  fetchWithProxy_loop fetch jsonContents (proxy :: proxies) sapsUrl lastError
  = (request proxy
       :: (fetchWithProxy_loop fetch jsonContents proxies sapsUrl (Some message)).1,
     (fetchWithProxy_loop fetch jsonContents proxies sapsUrl (Some message)).2).
Proof.
  unfold attempt, request. intros H. cbn [fetchWithProxy_loop].
  destruct (tryProxy fetch jsonContents proxy sapsUrl) as [req res].
  cbn [fst snd] in *. subst res.
  by destruct (fetchWithProxy_loop fetch jsonContents proxies sapsUrl (Some message)).
Qed.

Lemma fetchWithProxy_loop_cons_ok proxy proxies html lastError :
  attempt proxy = Returned html ->
  fetchWithProxy_loop fetch jsonContents (proxy :: proxies) sapsUrl lastError
  = ([request proxy], Returned html).
Proof.
  unfold attempt, request. intros H. cbn [fetchWithProxy_loop].
  destruct (tryProxy fetch jsonContents proxy sapsUrl) as [req res].
  cbn [fst snd] in *. by subst res.
Qed.

Lemma fetchWithProxy_loop_first_success failed :
  forall proxy proxies html lastError,
    Forall fails failed ->
    attempt proxy = Returned html ->
    fetchWithProxy_loop fetch jsonContents (failed ++ proxy :: proxies) sapsUrl lastError
    = (request <$> failed ++ [proxy], Returned html).
Proof.
  induction failed as [|p failed IH]; intros proxy proxies html lastError HF Hok.
  - by apply fetchWithProxy_loop_cons_ok.
  - inversion HF as [|? ? [message Hp] HF']; subst.
    cbn [app]. rewrite (fetchWithProxy_loop_cons_fail _ _ message) by done.
    by rewrite (IH proxy proxies html).
Qed.

Lemma fetchWithProxy_loop_all_fail failed :
  forall proxy message lastError,
    Forall fails failed ->
    attempt proxy = Thrown message ->
    fetchWithProxy_loop fetch jsonContents (failed ++ [proxy]) sapsUrl lastError
    = (request <$> failed ++ [proxy],
       Thrown ("All CORS proxies failed. Last error: " +:+ message)).
Proof.
  induction failed as [|p failed IH]; intros proxy message lastError HF Hlast.
  - cbn [app]. by rewrite (fetchWithProxy_loop_cons_fail _ _ message).
  - inversion HF as [|? ? [message' Hp] HF']; subst.
    cbn [app]. rewrite (fetchWithProxy_loop_cons_fail _ _ message') by done.
    by rewrite (IH proxy message).
Qed.

(** An attempt fails on a rejected [fetch] (the timeout included), on a
    status outside 200..299, on a body that cannot be read and on an empty
    page; it succeeds with the normalized page otherwise. *)
Lemma tryProxy_result proxy :
  attempt proxy =
    match fetch (request proxy) with
    | Rejected message => Thrown message
    | Responded response =>
        if bool_decide (200 <= httpStatus response <= 299) then
          match normalizedHtml jsonContents proxy response with
          | Thrown message => Thrown message
          | Returned (Some html) =>
              if bool_decide (trim html = "") then Thrown "Empty response received"
              else Returned html
          | Returned None => Thrown "Empty response received"
          end
        else Thrown ("HTTP " +:+ numToString (httpStatus response) +:+ ": "
                     +:+ statusText response)
    end.
Proof.
  unfold attempt, request, tryProxy, normalizedHtml, ok. cbn [fst snd].
  destruct (fetch _) as [message|response]; [done|].
  destruct (Z.leb_spec 200 (httpStatus response)),
    (Z.leb_spec (httpStatus response) 299); cbn [andb negb];
    try (rewrite bool_decide_eq_false_2 by lia; done).
  rewrite bool_decide_eq_true_2 by lia.
  destruct (if includes proxy "allorigins.win" then _ else _) as [[html|]|]; try done.
  destruct (decide (html = "")) as [->|Hne].
  - by rewrite !bool_decide_eq_true_2.
  - rewrite (bool_decide_eq_false_2 (html = "")) by done. cbn [orb].
    destruct (trim html) eqn:E; cbn [String.length Nat.eqb].
    + by rewrite bool_decide_eq_true_2.
    + by rewrite bool_decide_eq_false_2.
Qed.
End FetchWithProxy.

(** C3. Whatever the network answers, the loop of [fetchWithProxy] asks the
    proxies in the order of the list (for the code: allorigins, corsproxy.io,
    cors-anywhere, codetabs), goes on to the next proxy after a failed
    attempt (a rejected or timed out [fetch], a status outside 200..299, an
    empty page), and stops at the first proxy that succeeds, returning its
    normalized HTML.  When every proxy fails it throws one error whose
    message carries the message of the last failure.  So three failures
    followed by a success give the result, and the parsed status, of the
    fourth proxy alone. *)
Theorem fetchWithProxy_fallback
    (fetch : Request -> FetchOutcome)
    (jsonContents : string -> Completion (option string))
    (parseFromString : string -> Document) (parseDate : string -> Date)
    (sapsUrl : string) :
  let attempt proxy := (tryProxy fetch jsonContents proxy sapsUrl).2 in
  let request proxy := (tryProxy fetch jsonContents proxy sapsUrl).1 in
  let fails proxy := exists message, attempt proxy = Thrown message in
  let loop proxies := fetchWithProxy_loop fetch jsonContents proxies sapsUrl in
  fetchWithProxy fetch jsonContents sapsUrl
  = loop [ "https://api.allorigins.win/get?url="; "https://corsproxy.io/?";
           "https://cors-anywhere.herokuapp.com/";
           "https://api.codetabs.com/v1/proxy?quest=" ]%string None
  /\ (forall failed proxy proxies html lastError,
        Forall fails failed -> attempt proxy = Returned html ->
        loop (failed ++ proxy :: proxies) lastError
        = (request <$> failed ++ [proxy], Returned html))
  /\ (forall failed proxy message lastError,
        Forall fails failed -> attempt proxy = Thrown message ->
        loop (failed ++ [proxy]) lastError
        = (request <$> failed ++ [proxy],
           Thrown ("All CORS proxies failed. Last error: " +:+ message)))
  /\ (forall proxy,
        match fetch (request proxy) with
        | Rejected message => attempt proxy = Thrown message
        | Responded response =>
            if bool_decide (200 <= httpStatus response <= 299) then
              match normalizedHtml jsonContents proxy response with
              | Returned (Some html) =>
                  if bool_decide (trim html = "") then fails proxy
                  else attempt proxy = Returned html
              | _ => fails proxy
              end
            else fails proxy
        end)
  /\ (forall p1 p2 p3 p4 html dateApplied today,
        fails p1 -> fails p2 -> fails p3 -> attempt p4 = Returned html ->
        (loop [p1; p2; p3; p4] None).2 = (loop [p4] None).2
        /\ statusOf parseFromString parseDate (loop [p1; p2; p3; p4] None).2
             dateApplied today
           = statusOf parseFromString parseDate (loop [p4] None).2 dateApplied today).
Proof.
  intros attempt request fails loop.
  split; [done|]. split; [|split; [|split]].
  - intros. by apply fetchWithProxy_loop_first_success.
  - intros. by apply fetchWithProxy_loop_all_fail.
  - intros proxy. unfold fails, attempt, request.
    rewrite (tryProxy_result fetch jsonContents sapsUrl proxy).
    destruct (fetch _) as [message|response]; [done|].
    destruct (bool_decide _); [|by eexists].
    destruct (normalizedHtml _ _ _) as [[html|]|]; try by eexists.
    destruct (bool_decide _); [by eexists|done].
  - intros p1 p2 p3 p4 html dateApplied today H1 H2 H3 H4.
    assert (E : (loop [p1; p2; p3; p4] None).2 = (loop [p4] None).2).
    { pose proof (fetchWithProxy_loop_first_success fetch jsonContents sapsUrl
                    [p1; p2; p3] p4 [] html None) as E1.
      pose proof (fetchWithProxy_loop_first_success fetch jsonContents sapsUrl
                    [] p4 [] html None) as E2.
      cbn [app] in E1, E2. unfold loop.
      rewrite E1, E2 by (by repeat constructor). done. }
    by rewrite E.
Qed.

Lemma fetchWithProxy_fallback_witness :
  (fetchWithProxy Samples.fetch Samples.jsonContents "u").2
  = (fetchWithProxy_loop Samples.fetch Samples.jsonContents
       ["https://api.codetabs.com/v1/proxy?quest="]%string "u" None).2.
Proof.
  destruct (fetchWithProxy_fallback Samples.fetch Samples.jsonContents
              Samples.parseFromString Samples.parseDate "u")
    as (_ & _ & _ & _ & H).
  refine (proj1 (H "https://api.allorigins.win/get?url="%string
                   "https://corsproxy.io/?"%string
                   "https://cors-anywhere.herokuapp.com/"%string
                   "https://api.codetabs.com/v1/proxy?quest="%string
                   "<html>results</html>"%string ""%string 0 _ _ _ _)).
  - eexists. vm_compute. reflexivity.
  - eexists. vm_compute. reflexivity.
  - eexists. vm_compute. reflexivity.
  - vm_compute. reflexivity.
Defined.

Example sample_status :
  fetchFirearmStatus Samples.fetch Samples.jsonContents Samples.parseFromString
    Samples.parseDate Samples.params "2024-01-02" Samples.today
  = {| success := true;
       status := Some
         {| FirearmStatus.type := "Licence"; FirearmStatus.number := "A123";
            FirearmStatus.calibre := "Unknown"; FirearmStatus.make := "Glock";
            FirearmStatus.status := "Approved";
            FirearmStatus.description := "No description available";
            FirearmStatus.nextStep := "Collect";
            FirearmStatus.workingDaysPending := 95;
            FirearmStatus.isOverdue := true |};
       error := None |}.
Proof. vm_compute. reflexivity. Qed.

(** ** The parse step of [fetchFirearmStatus] *)

Lemma cellOr_insert_ne (cells : list string) i j v fallback :
  i <> j -> cellOr (<[j:=v]> cells) i fallback = cellOr cells i fallback.
Proof. intros Hne. unfold cellOr. by rewrite list_lookup_insert_ne. Qed.

Lemma cellOr_nonempty (cells : list string) i fallback :
  fallback <> ""%string -> cellOr cells i fallback <> ""%string.
Proof.
  intros Hf. unfold cellOr. destruct (cells !! i) as [v|]; [|done].
  by destruct (decide (v = ""%string));
    [rewrite bool_decide_eq_true_2|rewrite bool_decide_eq_false_2].
Qed.

Lemma cellOr_trim (dataCells : list string) i fallback :
  (i < length dataCells)%nat ->
  cellOr (map trim dataCells) i fallback
  = let text := trim (default ""%string (dataCells !! i)) in
    if bool_decide (text = ""%string) then fallback else text.
Proof.
  intros Hi. unfold cellOr.
  change (map trim dataCells) with (trim <$> dataCells). rewrite list_lookup_fmap.
  destruct (lookup_lt_is_Some_2 dataCells i Hi) as [v ->]. done.
Qed.

Lemma parseStatus_row (parseDate : string -> Date) (doc : Document)
    header dataCells rest (dateApplied : string) (today : Date) :
  table doc = Some (header :: dataCells :: rest) ->
  parseStatus parseDate doc dateApplied today
  = if (length dataCells <? 10)%nat then
      failure ("Insufficient data columns found ("
               +:+ numToString (Z.of_nat (length dataCells))
               +:+ "/10). Make sure your information is correct.")
    else
      let workingDaysPending := calculateWorkingDays (parseDate dateApplied) today in
      {| success := true;
         status := Some
           {| FirearmStatus.type := cellOr (map trim dataCells) 0 "Unknown";
              FirearmStatus.number := cellOr (map trim dataCells) 1 "Unknown";
              FirearmStatus.calibre := cellOr (map trim dataCells) 3 "Unknown";
              FirearmStatus.make := cellOr (map trim dataCells) 4 "Unknown";
              FirearmStatus.status := cellOr (map trim dataCells) 7 "Unknown";
              FirearmStatus.description :=
                cellOr (map trim dataCells) 8 "No description available";
              FirearmStatus.nextStep :=
                cellOr (map trim dataCells) 9 "No next step information";
              FirearmStatus.workingDaysPending := workingDaysPending;
              FirearmStatus.isOverdue := 90 <? workingDaysPending |};
         error := None |}.
Proof.
  intros E. unfold parseStatus. rewrite E.
  cbn [length Nat.leb lookup list_lookup default from_option]. unfold id.
  cbv zeta. by rewrite length_map.
Qed.

(** C4. The parse step tells apart: no results table on a page with a
    form ("no results found"), no results table and no form ("the page
    format may have changed", another message), a table without a data row,
    a first data row of fewer than ten cells (a failure that reports the
    number of cells, no status built from defaults), and a row of at least
    ten cells, which succeeds with type, number, calibre, make, status,
    description and next step read from columns 0, 1, 3, 4, 7, 8 and 9.
    The texts of columns 2, 5 and 6 do not change the result. *)
Theorem parseStatus_outcomes (parseDate : string -> Date) (doc : Document)
    (dateApplied : string) (today : Date) :
  let result := parseStatus parseDate doc dateApplied today in
  match table doc with
  | None =>
      if form doc then
        result = failure
          "No results found. Please verify your reference numbers are correct."
      else
        result = failure
          "No results table found on SAPS website. The page format may have changed."
  | Some rows =>
      match rows !! 1%nat with
      | None =>
          result = failure
            "No data rows found in results table. No matching applications found."
      | Some dataCells =>
          if decide (length dataCells < 10)%nat then
            result = failure
              ("Insufficient data columns found ("
               +:+ numToString (Z.of_nat (length dataCells))
               +:+ "/10). Make sure your information is correct.")
            /\ success result = false /\ status result = None
          else
            exists st,
              result = {| success := true; status := Some st; error := None |}
              /\ FirearmStatus.type st = cellOr (map trim dataCells) 0 "Unknown"
              /\ FirearmStatus.number st = cellOr (map trim dataCells) 1 "Unknown"
              /\ FirearmStatus.calibre st = cellOr (map trim dataCells) 3 "Unknown"
              /\ FirearmStatus.make st = cellOr (map trim dataCells) 4 "Unknown"
              /\ FirearmStatus.status st = cellOr (map trim dataCells) 7 "Unknown"
              /\ FirearmStatus.description st
                 = cellOr (map trim dataCells) 8 "No description available"
              /\ FirearmStatus.nextStep st
                 = cellOr (map trim dataCells) 9 "No next step information"
              /\ forall header rest c2 c5 c6,
                   rows = header :: dataCells :: rest ->
                   parseStatus parseDate
                     {| table := Some (header
                                       :: <[2%nat:=c2]> (<[5%nat:=c5]> (<[6%nat:=c6]> dataCells))
                                       :: rest);
                        form := form doc |} dateApplied today
                   = result
      end
  end
  /\ failure "No results found. Please verify your reference numbers are correct."
     <> failure
          "No results table found on SAPS website. The page format may have changed.".
Proof.
  intros result. split; [|discriminate].
  unfold result. destruct (table doc) as [rows|] eqn:Et;
    [|by unfold parseStatus; rewrite Et; destruct (form doc)].
  destruct rows as [|header [|dataCells rest]];
    try (by unfold parseStatus; rewrite Et).
  cbn [lookup list_lookup].
  rewrite (parseStatus_row _ _ _ _ _ _ _ Et).
  destruct (decide (length dataCells < 10)%nat) as [Hlt|Hge].
  - replace (length dataCells <? 10)%nat with true
      by (symmetry; apply Nat.ltb_lt; lia).
    done.
  - replace (length dataCells <? 10)%nat with false
      by (symmetry; apply Nat.ltb_ge; lia).
    eexists. split; [reflexivity|].
    cbn [FirearmStatus.type FirearmStatus.number FirearmStatus.calibre
         FirearmStatus.make FirearmStatus.status FirearmStatus.description
         FirearmStatus.nextStep].
    repeat (split; [reflexivity|]).
    intros header' rest' c2 c5 c6 E. injection E as <- <-.
    erewrite parseStatus_row by reflexivity.
    rewrite !length_insert.
    replace (length dataCells <? 10)%nat with false
      by (symmetry; apply Nat.ltb_ge; lia).
    change (map trim) with (fmap (M:=list) trim).
    rewrite !list_fmap_insert, !cellOr_insert_ne by lia. done.
Qed.

Lemma parseStatus_outcomes_witness :
  exists st,
    parseStatus Samples.parseDate Samples.page "2024-01-02" Samples.today
    = {| success := true; status := Some st; error := None |}
    /\ FirearmStatus.make st = "Glock"%string.
Proof.
  pose proof (parseStatus_outcomes Samples.parseDate Samples.page
                "2024-01-02" Samples.today) as [H _].
  cbn [Samples.page table lookup list_lookup] in H.
  destruct (decide _) as [Hlt|_] in H; [vm_compute in Hlt; lia|].
  destruct H as (st & E & _ & _ & _ & Hmake & _).
  exists st. split; [exact E|]. rewrite Hmake. vm_compute. reflexivity.
Defined.

(** C10. On a first data row of at least ten cells the parse step always
    succeeds: a mapped cell whose text is empty (or only white space) is
    replaced by its placeholder, ['Unknown'] for type, number, calibre, make
    and status, ['No description available'] and ['No next step information']
    for the last two, so no text field of the returned status is empty. *)
Theorem parseStatus_placeholders (parseDate : string -> Date) (doc : Document)
    (header dataCells : list string) (rest : list (list string))
    (dateApplied : string) (today : Date) :
  table doc = Some (header :: dataCells :: rest) ->
  (10 <= length dataCells)%nat ->
  let cell i := trim (default ""%string (dataCells !! i)) in
  let pick i placeholder :=
    if bool_decide (cell i = ""%string) then placeholder else cell i in
  exists st,
    parseStatus parseDate doc dateApplied today
    = {| success := true; status := Some st; error := None |}
    /\ FirearmStatus.type st = pick 0%nat "Unknown"%string
    /\ FirearmStatus.number st = pick 1%nat "Unknown"%string
    /\ FirearmStatus.calibre st = pick 3%nat "Unknown"%string
    /\ FirearmStatus.make st = pick 4%nat "Unknown"%string
    /\ FirearmStatus.status st = pick 7%nat "Unknown"%string
    /\ FirearmStatus.description st = pick 8%nat "No description available"%string
    /\ FirearmStatus.nextStep st = pick 9%nat "No next step information"%string
    /\ FirearmStatus.type st <> ""%string
    /\ FirearmStatus.number st <> ""%string
    /\ FirearmStatus.calibre st <> ""%string
    /\ FirearmStatus.make st <> ""%string
    /\ FirearmStatus.status st <> ""%string
    /\ FirearmStatus.description st <> ""%string
    /\ FirearmStatus.nextStep st <> ""%string.
Proof.
  intros Et Hlen cell pick.
  rewrite (parseStatus_row _ _ _ _ _ _ _ Et).
  replace (length dataCells <? 10)%nat with false
    by (symmetry; apply Nat.ltb_ge; lia).
  eexists. split; [reflexivity|].
  cbn [FirearmStatus.type FirearmStatus.number FirearmStatus.calibre
       FirearmStatus.make FirearmStatus.status FirearmStatus.description
       FirearmStatus.nextStep].
  repeat split; try (by apply cellOr_nonempty);
    by rewrite cellOr_trim by lia.
Qed.

Lemma parseStatus_placeholders_witness :
  exists st,
    parseStatus Samples.parseDate Samples.page "2024-01-02" Samples.today
    = {| success := true; status := Some st; error := None |}
    /\ FirearmStatus.calibre st = "Unknown"%string
    /\ FirearmStatus.description st = "No description available"%string.
Proof.
  destruct (parseStatus_placeholders Samples.parseDate Samples.page
              [] Samples.row [] "2024-01-02" Samples.today eq_refl)
    as (st & E & _ & _ & Hc & _ & _ & Hd & _).
  - vm_compute. lia.
  - exists st. split; [exact E|]. rewrite Hc, Hd. vm_compute. done.
Defined.

(** ** [fetchFirearmStatus] *)

Lemma catchError_fails message : status (catchError message) = None.
Proof.
  unfold catchError.
  by destruct (includes message "timeout"), (includes message "Network"),
    (includes message "proxy").
Qed.

(** C5. A lookup that succeeds returns a status whose [workingDaysPending]
    is [calculateWorkingDays(dateApplied, today)] and whose [isOverdue] says
    whether that number is more than 90; with 95 working days pending
    [isOverdue] is true. *)
Theorem fetchFirearmStatus_overdue
    (fetch : Request -> FetchOutcome)
    (jsonContents : string -> Completion (option string))
    (parseFromString : string -> Document) (parseDate : string -> Date)
    (params : SearchParams) (dateApplied : string) (today : Date) :
  let result :=
    fetchFirearmStatus fetch jsonContents parseFromString parseDate params
      dateApplied today in
  success result = true ->
  exists st,
    status result = Some st
    /\ FirearmStatus.workingDaysPending st
       = calculateWorkingDays (parseDate dateApplied) today
    /\ (FirearmStatus.isOverdue st = true <-> 90 < FirearmStatus.workingDaysPending st)
    /\ (FirearmStatus.workingDaysPending st = 95 -> FirearmStatus.isOverdue st = true).
Proof.
  intros result. unfold result, fetchFirearmStatus, statusOf. cbv zeta.
  destruct (fetchWithProxy _ _ _).2 as [html|message].
  2:{ unfold catchError.
      by destruct (includes message "timeout"), (includes message "Network"),
        (includes message "proxy"). }
  set (doc := parseFromString html).
  destruct (table doc) as [rows|] eqn:Et;
    [|by unfold parseStatus; rewrite Et; destruct (form doc)].
  destruct rows as [|header [|dataCells rest]];
    try (by unfold parseStatus; rewrite Et).
  rewrite (parseStatus_row _ _ _ _ _ _ _ Et).
  destruct (length dataCells <? 10)%nat; [done|]. intros _.
  eexists. split; [reflexivity|]. cbn [FirearmStatus.workingDaysPending
    FirearmStatus.isOverdue]. cbv zeta.
  split; [done|]. rewrite Z.ltb_lt. split; [done|]. intros ->. lia.
Qed.

Lemma fetchFirearmStatus_overdue_witness :
  exists st,
    status (fetchFirearmStatus Samples.fetch Samples.jsonContents
              Samples.parseFromString Samples.parseDate Samples.params
              "2024-01-02" Samples.today) = Some st
    /\ FirearmStatus.workingDaysPending st = 95
    /\ FirearmStatus.isOverdue st = true.
Proof.
  destruct (fetchFirearmStatus_overdue Samples.fetch Samples.jsonContents
              Samples.parseFromString Samples.parseDate Samples.params
              "2024-01-02" Samples.today) as (st & E & Hw & _ & H95).
  - vm_compute. reflexivity.
  - exists st. split; [exact E|].
    assert (H : FirearmStatus.workingDaysPending st = 95)
      by (rewrite Hw; vm_compute; reflexivity).
    split; [exact H|exact (H95 H)].
Defined.

(** ** The native capability *)

Import NotificationService.

Lemma lookup_removeAll ids (m : gmap Z LocalNotificationSchema) k :
  removeAll ids m !! k = if decide (k ∈ ids) then None else m !! k.
Proof.
  revert m. induction ids as [|i ids IH]; intros m; cbn [removeAll foldl].
  - by rewrite decide_False by apply not_elem_of_nil.
  - fold (removeAll ids (delete i m)). rewrite IH.
    destruct (decide (k ∈ ids)) as [Hin|Hout].
    + by rewrite decide_True by (by right).
    + destruct (decide (k = i)) as [->|Hne].
      * rewrite decide_True by (by left). apply lookup_delete_eq.
      * rewrite decide_False by (by intros [?|?]%elem_of_cons).
        by apply lookup_delete_ne.
Qed.

Lemma lookup_registerAll ns (m : gmap Z LocalNotificationSchema) c k :
  NotificationService.id <$> ns = seqZ c (Z.of_nat (length ns)) ->
  registerAll ns m !! k
  = if decide (c <= k < c + Z.of_nat (length ns)) then ns !! Z.to_nat (k - c)
    else m !! k.
Proof.
  revert m c. induction ns as [|n ns IH]; intros m c Hids; cbn [registerAll foldl].
  - by rewrite decide_False by (cbn; lia).
  - fold (registerAll ns (<[id n := n]> m)).
    rewrite seqZ_cons in Hids by (cbn; lia). injection Hids as Hn Hns.
    replace (Z.pred (Z.of_nat (S (length ns)))) with (Z.of_nat (length ns)) in Hns
      by lia.
    rewrite (IH _ (Z.succ c)) by exact Hns. cbn [length].
    destruct (decide (Z.succ c <= k < Z.succ c + Z.of_nat (length ns))) as [Hin|Hout].
    + rewrite decide_True by lia.
      replace (Z.to_nat (k - c)) with (S (Z.to_nat (k - Z.succ c))) by lia. done.
    + destruct (decide (k = c)) as [->|Hne].
      * rewrite decide_True by lia. rewrite Hn, lookup_insert_eq.
        by replace (c - c) with 0 by lia.
      * rewrite decide_False by lia. rewrite lookup_insert_ne by lia. done.
Qed.

Lemma seqZ_succ_length {A} (x : A) l c :
  seqZ c (Z.of_nat (length (x :: l))) = c :: seqZ (c + 1) (Z.of_nat (length l)).
Proof.
  rewrite seqZ_cons by (cbn [length]; lia). f_equal. f_equal; cbn [length]; lia.
Qed.

Lemma fmap_id_zip_with {A} (mk : A -> Z -> LocalNotificationSchema) l c :
  (forall a k, id (mk a k) = k) ->
  id <$> zip_with mk l (seqZ c (Z.of_nat (length l))) = seqZ c (Z.of_nat (length l)).
Proof.
  intros Hid. revert c. induction l as [|a l IH]; intros c; [done|].
  rewrite seqZ_succ_length. cbn [zip_with]. rewrite fmap_cons.
  f_equal; [apply Hid|apply IH].
Qed.

Lemma length_zip_with_seqZ {A B} (mk : A -> Z -> B) l c :
  length (zip_with mk l (seqZ c (Z.of_nat (length l)))) = length l.
Proof. rewrite length_zip_with, length_seqZ. lia. Qed.

Lemma lookup_zip_with_seqZ {A B} (mk : A -> Z -> B) l c i :
  zip_with mk l (seqZ c (Z.of_nat (length l))) !! i
  = (fun a => mk a (c + Z.of_nat i)) <$> l !! i.
Proof.
  rewrite lookup_zip_with. destruct (l !! i) as [a|] eqn:E; [|done]. cbn.
  apply lookup_lt_Some in E. rewrite lookup_seqZ_lt by lia. done.
Qed.

(** ** The loops of the scheduler *)

Lemma withCounter_same s : withCounter (notificationCounter s) s = s.
Proof. by destruct s. Qed.

Lemma setDate_getDate_sub t k : setDate t (getDate t - k) = t - k * msPerDay.
Proof.
  replace (getDate t - k) with (getDate t + - k) by lia.
  rewrite setDate_getDate. lia.
Qed.

Lemma scheduleFirearm_loop_spec firearm expiry today offsets :
  forall s,
    let due := List.filter (fun days => today <? expiry - days * msPerDay) offsets in
    let c := notificationCounter s in
    scheduleFirearm_loop firearm expiry today offsets s
    = (firearmReminders firearm expiry due c,
       seqZ c (Z.of_nat (length due)),
       withCounter (c + Z.of_nat (length due)) s).
Proof.
  induction offsets as [|days offsets IH]; intros s; cbv zeta.
  - cbn. by rewrite Z.add_0_r, withCounter_same.
  - cbn [scheduleFirearm_loop List.filter]. rewrite setDate_getDate_sub.
    destruct (today <? expiry - days * msPerDay).
    + unfold getNextNotificationId. rewrite IH. cbv zeta.
      cbn [notificationCounter]. unfold firearmReminders.
      rewrite !seqZ_succ_length. cbn [zip_with]. f_equal.
      unfold withCounter. cbn [length]. f_equal. lia.
    + by rewrite IH.
Qed.

Lemma scheduleApplication_loop_spec parseDate apps now :
  forall s,
    let due := dueApplications parseDate apps now in
    let c := notificationCounter s in
    scheduleApplication_loop parseDate apps now s
    = (applicationReminders parseDate due now c,
       applicationEntries due c,
       withCounter (c + Z.of_nat (length due)) s).
Proof.
  induction apps as [|app apps IH]; intros s; cbv zeta.
  - cbn. by rewrite Z.add_0_r, withCounter_same.
  - cbn [scheduleApplication_loop dueApplications List.filter]. cbv zeta.
    destruct (88 <=? calculateWorkingDays _ now).
    + unfold getNextNotificationId. rewrite IH. cbv zeta.
      cbn [notificationCounter]. fold (dueApplications parseDate apps now).
      unfold applicationReminders, applicationEntries.
      rewrite !seqZ_succ_length. cbn [zip_with]. f_equal.
      unfold withCounter. cbn [length]. f_equal. lia.
    + by rewrite IH.
Qed.

(** ** [scheduleFirearmNotifications] *)

Lemma cancelFirearmNotifications_fields firearmId' s :
  notificationCounter (cancelFirearmNotifications firearmId' s) = notificationCounter s
  /\ isNativePlatform (cancelFirearmNotifications firearmId' s) = isNativePlatform s
  /\ storedApplicationSchedule (cancelFirearmNotifications firearmId' s)
     = storedApplicationSchedule s.
Proof.
  unfold cancelFirearmNotifications.
  destruct (isNativePlatform s) eqn:E; cbn [negb]; [|done].
  destruct (List.find _ _) as [e|]; [|done].
  by destruct (0 <? length (notificationIds e))%nat.
Qed.

Lemma registerAll_nil (m : gmap Z LocalNotificationSchema) : registerAll [] m = m.
Proof. done. Qed.

Lemma length_firearmReminders firearm expiry offsets c :
  length (firearmReminders firearm expiry offsets c) = length offsets.
Proof. apply length_zip_with_seqZ. Qed.

Lemma ids_firearmReminders firearm expiry offsets c :
  NotificationService.id <$> firearmReminders firearm expiry offsets c
  = seqZ c (Z.of_nat (length (firearmReminders firearm expiry offsets c))).
Proof.
  rewrite length_firearmReminders. unfold firearmReminders.
  by apply fmap_id_zip_with.
Qed.

Lemma lookup_firearmReminders firearm expiry offsets c i :
  firearmReminders firearm expiry offsets c !! i
  = (fun days => firearmNotification firearm (expiry - days * msPerDay) days
                   (c + Z.of_nat i)) <$> offsets !! i.
Proof. apply lookup_zip_with_seqZ. Qed.

(** The state after [scheduleFirearmNotifications] on a native platform. *)
Lemma scheduleFirearmNotifications_native parseDate firearm now s :
  isNativePlatform s = true ->
  let s0 := cancelFirearmNotifications (FirearmRecord.id firearm) s in
  let expiry := parseDate (FirearmRecord.expiryDate firearm) in
  let due := applicableIntervals expiry now in
  let c := notificationCounter s in
  let s' := scheduleFirearmNotifications parseDate firearm now s in
  notificationCounter s' = c + Z.of_nat (length due)
  /\ pending s' = registerAll (firearmReminders firearm expiry due c) (pending s0)
  /\ storedApplicationSchedule s' = storedApplicationSchedule s
  /\ isNativePlatform s' = true
  /\ (due = [] -> s' = s0)
  /\ (due <> [] ->
      let newSchedule :=
        {| firearmId := FirearmRecord.id firearm;
           firearmTitle := FirearmRecord.title firearm;
           expiryDate := FirearmRecord.expiryDate firearm;
           notificationIds := seqZ c (Z.of_nat (length due)) |} in
      storedSchedule s'
      = match list_find (fun e => firearmId e = FirearmRecord.id firearm)
                (storedSchedule s0) with
        | Some (existingIndex, _) => <[existingIndex := newSchedule]> (storedSchedule s0)
        | None => storedSchedule s0 ++ [newSchedule]
        end).
Proof.
  intros Hnative s0 expiry due c s'.
  destruct (cancelFirearmNotifications_fields (FirearmRecord.id firearm) s)
    as (Hc & Hn & Ha). fold s0 in Hc, Hn, Ha.
  unfold s', scheduleFirearmNotifications. rewrite Hnative. cbn [negb]. cbv zeta.
  fold s0 expiry. rewrite scheduleFirearm_loop_spec. cbv zeta.
  fold (applicableIntervals expiry now). fold due. rewrite Hc. fold c.
  rewrite length_firearmReminders.
  destruct due as [|d due'] eqn:Edue.
  - cbn [length Nat.ltb Nat.leb]. rewrite Z.add_0_r.
    replace (withCounter c s0) with s0
      by (unfold c; by rewrite <- Hc, withCounter_same).
    rewrite registerAll_nil, Hn, Ha, Hnative. repeat split; try done; lia.
  - replace (0 <? length (d :: due'))%nat with true by done.
    unfold loadSchedule. cbn [LocalNotifications_schedule storedSchedule withCounter].
    destruct (list_find _ (storedSchedule s0)) as [[i e]|];
      cbn [saveSchedule notificationCounter pending storedApplicationSchedule
             isNativePlatform storedSchedule LocalNotifications_schedule withCounter];
      rewrite ?Ha, ?Hn, ?Hnative; repeat split; done.
Qed.

Lemma applicableIntervals_spec expiry now days :
  days ∈ applicableIntervals expiry now
  <-> days ∈ intervals /\ now < expiry - days * msPerDay.
Proof.
  unfold applicableIntervals.
  rewrite list_elem_of_In, filter_In, <- list_elem_of_In, Z.ltb_lt. tauto.
Qed.

Lemma applicableIntervals_NoDup expiry now : NoDup (applicableIntervals expiry now).
Proof.
  unfold applicableIntervals. apply NoDup_ListNoDup, List.NoDup_filter.
  apply NoDup_ListNoDup. apply (bool_decide_unpack _). by vm_compute.
Qed.

Lemma applicableIntervals_ten_days now :
  applicableIntervals (now + 10 * msPerDay) now = [7; 3; 1].
Proof.
  unfold applicableIntervals, intervals. cbn [List.filter].
  repeat match goal with
         | |- context [?a <? ?b] =>
             destruct (Z.ltb_spec a b); try (unfold msPerDay in *; lia)
         end.
  done.
Qed.

(** C6. On a native platform [scheduleFirearmNotifications] registers, after
    the cancellation of the record's earlier reminders, exactly one reminder
    for each of the offsets 365, 180, 90, 60, 30, 14, 7, 3, 1 whose instant
    (expiry minus the offset in days) is strictly after now, under fresh
    consecutive identifiers, and nothing else.  With no such offset nothing
    is registered and the call ends as the cancellation left the service.
    An expiry exactly ten days after now gives the offsets 7, 3 and 1. *)
Theorem scheduleFirearmNotifications_offsets
    (parseDate : string -> Date) (firearm : FirearmRecord.t) (now : Date)
    (s : Service) :
  isNativePlatform s = true ->
  let expiry := parseDate (FirearmRecord.expiryDate firearm) in
  let due := applicableIntervals expiry now in
  let s0 := cancelFirearmNotifications (FirearmRecord.id firearm) s in
  let c := notificationCounter s in
  let reminders := firearmReminders firearm expiry due c in
  let s' := scheduleFirearmNotifications parseDate firearm now s in
  (forall days, days ∈ due <-> days ∈ intervals /\ now < expiry - days * msPerDay)
  /\ NoDup due
  /\ pending s' = registerAll reminders (pending s0)
  /\ length reminders = length due
  /\ (forall i days, due !! i = Some days ->
        exists r, reminders !! i = Some r
                  /\ NotificationService.id r = c + Z.of_nat i
                  /\ schedule_at r = expiry - days * msPerDay
                  /\ now < schedule_at r
                  /\ extra r = FirearmExtra (FirearmRecord.id firearm) days)
  /\ (forall k, pending s' !! k
                = if decide (c <= k < c + Z.of_nat (length due))
                  then reminders !! Z.to_nat (k - c)
                  else pending s0 !! k)
  /\ (due = [] -> s' = s0)
  /\ (expiry = now + 10 * msPerDay -> due = [7; 3; 1]).
Proof.
  intros Hnative expiry due s0 c reminders s'.
  destruct (scheduleFirearmNotifications_native parseDate firearm now s Hnative)
    as (_ & Hp & _ & _ & Hnil & _).
  fold expiry due s0 c reminders s' in Hp, Hnil.
  split; [apply applicableIntervals_spec|].
  split; [apply applicableIntervals_NoDup|].
  split; [exact Hp|].
  split; [apply length_firearmReminders|].
  split; [|split; [|split; [exact Hnil|]]].
  - intros i days Hi. eexists. unfold reminders.
    rewrite lookup_firearmReminders, Hi. cbn.
    split; [reflexivity|]. repeat split.
    apply (applicableIntervals_spec expiry now days).
    by eapply list_elem_of_lookup_2.
  - intros k. rewrite Hp.
    rewrite (lookup_registerAll _ _ c) by apply ids_firearmReminders.
    unfold reminders. by rewrite length_firearmReminders.
  - intros E. unfold due. rewrite E. apply applicableIntervals_ten_days.
Qed.

(** ** [scheduleApplicationNotifications] *)

Lemma cancelAllApplicationNotifications_native s :
  isNativePlatform s = true ->
  cancelAllApplicationNotifications s
  = {| notificationCounter := notificationCounter s;
       storedSchedule := storedSchedule s;
       storedApplicationSchedule := [];
       pending := removeAll (map notificationId (storedApplicationSchedule s)) (pending s);
       isNativePlatform := true |}.
Proof.
  intros Hnative. unfold cancelAllApplicationNotifications, loadApplicationSchedule.
  rewrite Hnative. cbn [negb]. cbv zeta.
  destruct (storedApplicationSchedule s) as [|a l]; cbn [map length Nat.ltb Nat.leb].
  - unfold saveApplicationSchedule. by rewrite Hnative.
  - unfold saveApplicationSchedule, LocalNotifications_cancel.
    cbn [notificationCounter storedSchedule pending isNativePlatform].
    by rewrite Hnative.
Qed.

Lemma length_applicationReminders parseDate apps now c :
  length (applicationReminders parseDate apps now c) = length apps.
Proof. apply length_zip_with_seqZ. Qed.

Lemma ids_applicationReminders parseDate apps now c :
  NotificationService.id <$> applicationReminders parseDate apps now c
  = seqZ c (Z.of_nat (length (applicationReminders parseDate apps now c))).
Proof.
  rewrite length_applicationReminders. unfold applicationReminders.
  by apply fmap_id_zip_with.
Qed.

Lemma scheduleApplicationNotifications_native parseDate apps now s :
  isNativePlatform s = true ->
  let due := dueApplications parseDate apps now in
  let c := notificationCounter s in
  scheduleApplicationNotifications parseDate apps now s
  = {| notificationCounter := c + Z.of_nat (length due);
       storedSchedule := storedSchedule s;
       storedApplicationSchedule := applicationEntries due c;
       pending :=
         registerAll (applicationReminders parseDate due now c)
           (removeAll (map notificationId (storedApplicationSchedule s)) (pending s));
       isNativePlatform := true |}.
Proof.
  intros Hnative due c. unfold scheduleApplicationNotifications.
  rewrite Hnative. cbn [negb]. cbv zeta.
  rewrite cancelAllApplicationNotifications_native by done.
  rewrite scheduleApplication_loop_spec. cbv zeta.
  cbn [notificationCounter]. fold due c.
  rewrite length_applicationReminders.
  destruct due as [|app due']; [|done].
  cbn [length Nat.ltb Nat.leb]. unfold withCounter. cbn. f_equal; lia.
Qed.

(** C9. On a native platform [scheduleApplicationNotifications] cancels
    every application reminder of the persisted application schedule and
    replaces that schedule by the entries of the applications whose
    working days pending are at least 88, one reminder each under a fresh
    identifier: one minute after now when the working days pending are at
    least 90, otherwise (90 - working days pending) + 2 days after now. *)
Theorem scheduleApplicationNotifications_replaces
    (parseDate : string -> Date) (apps : list FirearmApplication.t) (now : Date)
    (s : Service) :
  isNativePlatform s = true ->
  let pendingDays app :=
    calculateWorkingDays (parseDate (FirearmApplication.dateApplied app)) now in
  let due := dueApplications parseDate apps now in
  let c := notificationCounter s in
  let old := map notificationId (storedApplicationSchedule s) in
  let reminders := applicationReminders parseDate due now c in
  let s' := scheduleApplicationNotifications parseDate apps now s in
  (forall app, app ∈ due <-> app ∈ apps /\ 88 <= pendingDays app)
  /\ storedApplicationSchedule s' = applicationEntries due c
  /\ storedSchedule s' = storedSchedule s
  /\ pending s' = registerAll reminders (removeAll old (pending s))
  /\ (forall k, pending s' !! k
                = if decide (c <= k < c + Z.of_nat (length due))
                  then reminders !! Z.to_nat (k - c)
                  else if decide (k ∈ old) then None else pending s !! k)
  /\ (forall i app, due !! i = Some app ->
        exists r,
          reminders !! i = Some r
          /\ applicationEntries due c !! i
             = Some {| applicationId := FirearmApplication.id app;
                       applicationRef := FirearmApplication.applicationRefNumber app;
                       notificationId := c + Z.of_nat i |}
          /\ NotificationService.id r = c + Z.of_nat i
          /\ extra r = ApplicationExtra (FirearmApplication.id app) (pendingDays app)
          /\ (90 <= pendingDays app -> schedule_at r = now + 60000)
          /\ (pendingDays app < 90 ->
              schedule_at r = now + ((90 - pendingDays app) + 2) * msPerDay)).
Proof.
  intros Hnative pendingDays due c old reminders s'.
  unfold s'. rewrite scheduleApplicationNotifications_native by done.
  cbn [storedApplicationSchedule storedSchedule pending]. fold due c old reminders.
  split.
  { intros app. unfold due, dueApplications.
    rewrite list_elem_of_In, filter_In, <- list_elem_of_In, Z.leb_le. tauto. }
  repeat (split; [done|]). split.
  - intros k. rewrite (lookup_registerAll _ _ c) by apply ids_applicationReminders.
    unfold reminders. rewrite length_applicationReminders.
    by rewrite lookup_removeAll.
  - intros i app Hi. eexists. unfold reminders, applicationReminders, applicationEntries.
    rewrite !lookup_zip_with_seqZ, Hi. cbn [fmap option_fmap option_map].
    split; [reflexivity|]. split; [reflexivity|].
    unfold applicationNotification. cbn [NotificationService.id extra schedule_at].
    fold (pendingDays app). repeat split.
    + intros H. by replace (90 <=? pendingDays app) with true
        by (symmetry; apply Z.leb_le; lia).
    + intros H. replace (90 <=? pendingDays app) with false
        by (symmetry; apply Z.leb_gt; lia).
      unfold msPerDay. lia.
Qed.

(** ** The consistency invariant *)

Lemma NoDup_fmap_filter {A B} (f : A -> B) (P : A -> Prop) `{!forall x, Decision (P x)}
    (l : list A) :
  NoDup (f <$> l) -> NoDup (f <$> filter P l).
Proof.
  induction l as [|x l IH]; [done|]. rewrite fmap_cons, NoDup_cons.
  intros [Hx Hl]. rewrite filter_cons. destruct (decide (P x)); [|by apply IH].
  rewrite fmap_cons. apply NoDup_cons. split; [|by apply IH].
  intros (y & E & Hy)%list_elem_of_fmap. apply Hx, list_elem_of_fmap.
  exists y. split; [done|]. by apply list_elem_of_filter in Hy as [_ ?].
Qed.

Lemma NoDup_fmap_eq {A B} (f : A -> B) (l : list A) x y :
  NoDup (f <$> l) -> x ∈ l -> y ∈ l -> f x = f y -> x = y.
Proof.
  induction l as [|z l IH]; [by intros _ ?%elem_of_nil|].
  rewrite fmap_cons, NoDup_cons. intros [Hz Hl] Hx Hy E.
  apply elem_of_cons in Hx as [->|Hx]; apply elem_of_cons in Hy as [->|Hy].
  - done.
  - exfalso. apply Hz, list_elem_of_fmap. by exists y.
  - exfalso. apply Hz, list_elem_of_fmap. by exists x.
  - by apply IH.
Qed.

Lemma find_firearm_Some fid schedule e0 :
  List.find (fun e => bool_decide (firearmId e = fid)) schedule = Some e0 ->
  e0 ∈ schedule /\ firearmId e0 = fid.
Proof.
  intros [Hin Hb]%find_some. split; [by apply list_elem_of_In|].
  by apply bool_decide_eq_true in Hb.
Qed.

Lemma find_firearm_None fid schedule :
  List.find (fun e => bool_decide (firearmId e = fid)) schedule = None ->
  forall e, e ∈ schedule -> firearmId e <> fid.
Proof.
  intros Hnone e Hin%list_elem_of_In.
  pose proof (find_none _ _ Hnone e Hin) as Hb. cbn in Hb.
  by apply bool_decide_eq_false in Hb.
Qed.

Lemma consistent_initial native : consistent (initial native).
Proof.
  split; cbn.
  - apply NoDup_nil_2.
  - by intros e ?%elem_of_nil.
  - apply NoDup_nil_2.
  - intros k n H. by rewrite lookup_empty in H.
  - intros k n f d H. by rewrite lookup_empty in H.
  - by intros e k ?%elem_of_nil.
  - by intros a ?%elem_of_nil.
Qed.

Lemma consistent_tracking s : consistent s -> tracking s.
Proof. intros I. split; apply I. Qed.

Lemma cancelFirearmNotifications_native fid s :
  isNativePlatform s = true -> tracking s ->
  cancelFirearmNotifications fid s
  = match List.find (fun e => bool_decide (firearmId e = fid)) (storedSchedule s) with
    | Some e0 =>
        {| notificationCounter := notificationCounter s;
           storedSchedule := filter (fun e => firearmId e <> fid) (storedSchedule s);
           storedApplicationSchedule := storedApplicationSchedule s;
           pending := removeAll (notificationIds e0) (pending s);
           isNativePlatform := true |}
    | None => s
    end.
Proof.
  intros Hnative I. unfold cancelFirearmNotifications, loadSchedule.
  rewrite Hnative. cbn [negb]. cbv zeta.
  destruct (List.find _ _) as [e0|] eqn:F; [|done].
  apply find_firearm_Some in F as [Hin _].
  pose proof (tracking_nonempty s I e0 Hin) as Hne.
  destruct (notificationIds e0) as [|k ks] eqn:E; [done|].
  cbn [length Nat.ltb Nat.leb]. unfold saveSchedule, LocalNotifications_cancel.
  cbn [notificationCounter storedApplicationSchedule pending isNativePlatform].
  by rewrite Hnative.
Qed.

Lemma consistent_cancelFirearm fid s :
  consistent s -> consistent (cancelFirearmNotifications fid s).
Proof.
  intros I. destruct (isNativePlatform s) eqn:Hnative.
  2:{ unfold cancelFirearmNotifications. by rewrite Hnative. }
  rewrite cancelFirearmNotifications_native by (by try apply consistent_tracking).
  destruct (List.find _ _) as [e0|] eqn:F; [|done].
  apply find_firearm_Some in F as [Hin0 Hf0].
  split; cbn [notificationCounter storedSchedule storedApplicationSchedule
                pending isNativePlatform].
  - apply NoDup_fmap_filter, I.
  - intros e [_ Hin]%list_elem_of_filter. by apply I.
  - apply I.
  - intros k n H. rewrite lookup_removeAll in H.
    destruct (decide (k ∈ notificationIds e0)); [done|]. by apply I.
  - intros k n f d H Hx. rewrite lookup_removeAll in H.
    destruct (decide (k ∈ notificationIds e0)) as [|Hk0]; [done|].
    destruct (firearm_tracked s I k n f d H Hx) as (e & Hin & Hf & Hk).
    exists e. split; [|done]. apply list_elem_of_filter. split; [|done].
    intros Hfid. apply Hk0.
    replace e0 with e; [done|].
    apply (NoDup_fmap_eq firearmId (storedSchedule s)); [apply I|done..|congruence].
  - intros e k [Hne Hin]%list_elem_of_filter Hk.
    destruct (firearm_live s I e k Hin Hk) as (n & d & Hp & Hx).
    exists n, d. split; [|done]. rewrite lookup_removeAll.
    destruct (decide (k ∈ notificationIds e0)) as [Hk0|]; [|done].
    destruct (firearm_live s I e0 k Hin0 Hk0) as (n' & d' & Hp' & Hx').
    rewrite Hp in Hp'. injection Hp' as <-. rewrite Hx in Hx'.
    injection Hx' as E _. congruence.
  - intros a Ha. destruct (application_live s I a Ha) as (n & f & w & Hp & Hx).
    exists n, f, w. split; [|done]. rewrite lookup_removeAll.
    destruct (decide (notificationId a ∈ notificationIds e0)) as [Hk0|]; [|done].
    destruct (firearm_live s I e0 _ Hin0 Hk0) as (n' & d' & Hp' & Hx').
    rewrite Hp in Hp'. injection Hp' as <-. congruence.
Qed.

Lemma cancelFirearmNotifications_no_entry fid s :
  isNativePlatform s = true -> tracking s ->
  forall e, e ∈ storedSchedule (cancelFirearmNotifications fid s) -> firearmId e <> fid.
Proof.
  intros Hnative I e. rewrite cancelFirearmNotifications_native by done.
  destruct (List.find _ _) as [e0|] eqn:F.
  - cbn [storedSchedule]. by intros [? _]%list_elem_of_filter.
  - by apply find_firearm_None.
Qed.

Lemma firearmReminders_lookup_Some firearm expiry offsets c i r :
  firearmReminders firearm expiry offsets c !! i = Some r ->
  exists days, offsets !! i = Some days
               /\ r = firearmNotification firearm (expiry - days * msPerDay) days
                        (c + Z.of_nat i).
Proof.
  rewrite lookup_firearmReminders. destruct (offsets !! i) as [days|]; [|done].
  intros [= <-]. by exists days.
Qed.

(** What is registered after a batch numbered from the counter [c] has been
    registered on top of notifications with identifiers below [c]. *)
Lemma lookup_registerAll_Some ns (m : gmap Z LocalNotificationSchema) c k n :
  NotificationService.id <$> ns = seqZ c (Z.of_nat (length ns)) ->
  (forall k' n', m !! k' = Some n' -> k' < c) ->
  registerAll ns m !! k = Some n
  <-> (exists i, ns !! i = Some n /\ k = c + Z.of_nat i) \/ m !! k = Some n.
Proof.
  intros Hids Hold. rewrite (lookup_registerAll _ _ c) by done.
  destruct (decide (c <= k < c + Z.of_nat (length ns))) as [Hin|Hout]; split.
  - intros H. left. exists (Z.to_nat (k - c)). split; [done|lia].
  - intros [(i & Hi & ->)|H].
    + by replace (Z.to_nat (c + Z.of_nat i - c)) with i by lia.
    + apply Hold in H. lia.
  - by right.
  - intros [(i & Hi & ->)|H]; [|done]. apply lookup_lt_Some in Hi. lia.
Qed.

Lemma consistent_scheduleFirearm parseDate firearm now s :
  consistent s -> consistent (scheduleFirearmNotifications parseDate firearm now s).
Proof.
  intros I. destruct (isNativePlatform s) eqn:Hnative.
  2:{ unfold scheduleFirearmNotifications. by rewrite Hnative. }
  pose proof (consistent_cancelFirearm (FirearmRecord.id firearm) s I) as I0.
  pose proof (cancelFirearmNotifications_no_entry (FirearmRecord.id firearm) s
                Hnative (consistent_tracking s I)) as Hfresh.
  destruct (cancelFirearmNotifications_fields (FirearmRecord.id firearm) s)
    as (Hc0 & _ & Ha0).
  destruct (scheduleFirearmNotifications_native parseDate firearm now s Hnative)
    as (Hc & Hp & Ha & _ & Hnil & Hcons).
  set (s0 := cancelFirearmNotifications (FirearmRecord.id firearm) s) in *.
  set (expiry := parseDate (FirearmRecord.expiryDate firearm)) in *.
  set (due := applicableIntervals expiry now) in *.
  set (c := notificationCounter s) in *.
  set (R := firearmReminders firearm expiry due c) in *.
  set (s' := scheduleFirearmNotifications parseDate firearm now s) in *.
  destruct (decide (due = [])) as [Hdue|Hdue]; [by rewrite (Hnil Hdue)|].
  specialize (Hcons Hdue). cbv zeta in Hcons.
  rewrite (proj2 (list_find_None _ _)) in Hcons
    by (apply Forall_forall; intros e He; by apply Hfresh).
  set (new := {| firearmId := FirearmRecord.id firearm;
                 firearmTitle := FirearmRecord.title firearm;
                 expiryDate := FirearmRecord.expiryDate firearm;
                 notificationIds := seqZ c (Z.of_nat (length due)) |}) in *.
  assert (Hlen : length R = length due) by apply length_firearmReminders.
  assert (Hlook : forall k n, pending s' !! k = Some n
            <-> (exists i, R !! i = Some n /\ k = c + Z.of_nat i)
                \/ pending s0 !! k = Some n).
  { intros k n. rewrite Hp. apply lookup_registerAll_Some.
    - apply ids_firearmReminders.
    - intros k' n' H. apply (pending_ids s0 I0) in H. lia. }
  split.
  - rewrite Hcons, fmap_app. apply NoDup_app. split; [apply I0|]. split.
    + intros f (e & -> & He)%list_elem_of_fmap [E|[]%elem_of_nil]%elem_of_cons.
      by apply (Hfresh e He).
    + apply NoDup_singleton.
  - rewrite Hcons. intros e [He|[->|[]%elem_of_nil]%elem_of_cons]%elem_of_app.
    + by apply I0.
    + unfold new. cbn [notificationIds]. intros E. apply (f_equal length) in E. rewrite length_seqZ in E.
      cbn [length] in E. apply Hdue, nil_length_inv. lia.
  - rewrite Ha, <- Ha0. apply I0.
  - intros k n [(i & Hi & ->)|H]%Hlook.
    + pose proof (lookup_lt_Some _ _ _ Hi).
      apply firearmReminders_lookup_Some in Hi as (days & _ & ->).
      cbn [firearmNotification NotificationService.id]. lia.
    + apply (pending_ids s0 I0) in H. lia.
  - intros k n f d [(i & Hi & ->)|H]%Hlook Hx.
    + pose proof (lookup_lt_Some _ _ _ Hi).
      apply firearmReminders_lookup_Some in Hi as (days & _ & ->).
      cbn [firearmNotification extra] in Hx. injection Hx as <- <-. exists new. rewrite Hcons.
      split; [apply elem_of_app; right; by left|]. split; [done|].
      unfold new. cbn [notificationIds]. apply elem_of_seqZ. lia.
    + destruct (firearm_tracked s0 I0 k n f d H Hx) as (e & He & Hf & Hk).
      exists e. rewrite Hcons. split; [apply elem_of_app; by left|done].
  - rewrite Hcons. intros e k [He|[->|[]%elem_of_nil]%elem_of_cons]%elem_of_app Hk.
    + destruct (firearm_live s0 I0 e k He Hk) as (n & d & Hpk & Hx).
      exists n, d. split; [|done]. apply Hlook. by right.
    + unfold new in Hk. cbn [notificationIds] in Hk. apply elem_of_seqZ in Hk.
      destruct (lookup_lt_is_Some_2 R (Z.to_nat (k - c)) ltac:(lia)) as [r Hr].
      pose proof Hr as Hr'.
      apply firearmReminders_lookup_Some in Hr' as (days & _ & ->).
      exists (firearmNotification firearm (expiry - days * msPerDay) days
                (c + Z.of_nat (Z.to_nat (k - c)))), days.
      split; [apply Hlook; left|reflexivity].
      exists (Z.to_nat (k - c)). split; [done|lia].
  - rewrite Ha, <- Ha0. intros a Hin.
    destruct (application_live s0 I0 a Hin) as (n & f & w & Hpk & Hx).
    exists n, f, w. split; [|done]. apply Hlook. by right.
Qed.

Lemma elem_of_concat_ids k (schedule : list NotificationSchedule) :
  k ∈ concat (map notificationIds schedule)
  <-> exists e, e ∈ schedule /\ k ∈ notificationIds e.
Proof.
  rewrite list_elem_of_In, in_concat. split.
  - intros (ids & (e & <- & He)%in_map_iff & Hk). exists e.
    split; by apply list_elem_of_In.
  - intros (e & He & Hk). exists (notificationIds e).
    split; [|by apply list_elem_of_In].
    apply in_map_iff. exists e. split; [done|]. by apply list_elem_of_In.
Qed.

Lemma cancelAllNotifications_native s :
  isNativePlatform s = true ->
  cancelAllNotifications s
  = {| notificationCounter := notificationCounter s;
       storedSchedule := [];
       storedApplicationSchedule := storedApplicationSchedule s;
       pending := removeAll (concat (map notificationIds (storedSchedule s))) (pending s);
       isNativePlatform := true |}.
Proof.
  intros Hnative. unfold cancelAllNotifications, loadSchedule.
  rewrite Hnative. cbn [negb]. cbv zeta.
  destruct (concat _) as [|k ks]; cbn [length Nat.ltb Nat.leb].
  - unfold saveSchedule. by rewrite Hnative.
  - unfold saveSchedule, LocalNotifications_cancel.
    cbn [notificationCounter storedApplicationSchedule pending isNativePlatform].
    by rewrite Hnative.
Qed.

Lemma consistent_cancelAll s : consistent s -> consistent (cancelAllNotifications s).
Proof.
  intros I. destruct (isNativePlatform s) eqn:Hnative.
  2:{ unfold cancelAllNotifications. by rewrite Hnative. }
  rewrite cancelAllNotifications_native by done.
  split; cbn [notificationCounter storedSchedule storedApplicationSchedule
                pending isNativePlatform].
  - apply NoDup_nil_2.
  - by intros e ?%elem_of_nil.
  - apply I.
  - intros k n H. rewrite lookup_removeAll in H.
    destruct (decide _); [done|]. by apply I.
  - intros k n f d H Hx. rewrite lookup_removeAll in H.
    destruct (decide _) as [|Hout]; [done|]. exfalso. apply Hout.
    apply elem_of_concat_ids.
    destruct (firearm_tracked s I k n f d H Hx) as (e & He & _ & Hk). by exists e.
  - by intros e k ?%elem_of_nil.
  - intros a Ha. destruct (application_live s I a Ha) as (n & f & w & Hp & Hx).
    exists n, f, w. split; [|done]. rewrite lookup_removeAll.
    destruct (decide _) as [(e & He & Hk)%elem_of_concat_ids|]; [|done].
    destruct (firearm_live s I e _ He Hk) as (n' & d' & Hp' & Hx').
    rewrite Hp in Hp'. injection Hp' as <-. congruence.
Qed.

Lemma consistent_test now s : consistent s -> consistent (scheduleTestNotification now s).
Proof.
  intros I. unfold scheduleTestNotification.
  destruct (isNativePlatform s) eqn:Hnative; cbn [negb]; [|done].
  unfold getNextNotificationId, LocalNotifications_schedule, registerAll.
  cbn [foldl notificationCounter storedSchedule storedApplicationSchedule pending
         isNativePlatform NotificationService.id].
  assert (Hold : forall k n, pending s !! k = Some n -> k <> notificationCounter s)
    by (intros k n H; apply (pending_ids s I) in H; lia).
  split; cbn [notificationCounter storedSchedule storedApplicationSchedule
                pending isNativePlatform].
  - apply I.
  - apply I.
  - apply I.
  - intros k n [[<- <-]|[Hne H]]%lookup_insert_Some; [cbn; lia|].
    apply (pending_ids s I) in H. lia.
  - intros k n f d [[<- <-]|[Hne H]]%lookup_insert_Some Hx; [done|].
    by apply (firearm_tracked s I k n f d).
  - intros e k He Hk. destruct (firearm_live s I e k He Hk) as (n & d & Hp & Hx).
    exists n, d. split; [|done]. rewrite lookup_insert_ne; [done|].
    apply not_eq_sym. by eapply Hold.
  - intros a Ha. destruct (application_live s I a Ha) as (n & f & w & Hp & Hx).
    exists n, f, w. split; [|done]. rewrite lookup_insert_ne; [done|].
    apply not_eq_sym. by eapply Hold.
Qed.

Lemma consistent_cancelAllApplications s :
  consistent s -> consistent (cancelAllApplicationNotifications s).
Proof.
  intros I. destruct (isNativePlatform s) eqn:Hnative.
  2:{ unfold cancelAllApplicationNotifications. by rewrite Hnative. }
  rewrite cancelAllApplicationNotifications_native by done.
  split; cbn [notificationCounter storedSchedule storedApplicationSchedule
                pending isNativePlatform].
  - apply I.
  - apply I.
  - apply NoDup_nil_2.
  - intros k n H. rewrite lookup_removeAll in H.
    destruct (decide _); [done|]. by apply I.
  - intros k n f d H Hx. rewrite lookup_removeAll in H.
    destruct (decide _); [done|]. by apply (firearm_tracked s I k n f d).
  - intros e k He Hk. destruct (firearm_live s I e k He Hk) as (n & d & Hp & Hx).
    exists n, d. split; [|done]. rewrite lookup_removeAll.
    destruct (decide _) as [Hin|]; [|done].
    apply list_elem_of_In, in_map_iff in Hin as (a & <- & Ha%list_elem_of_In).
    destruct (application_live s I a Ha) as (n' & f & w & Hp' & Hx').
    rewrite Hp in Hp'. injection Hp' as <-. congruence.
  - by intros a ?%elem_of_nil.
Qed.

Lemma consistent_scheduleApplications parseDate apps now s :
  consistent s -> consistent (scheduleApplicationNotifications parseDate apps now s).
Proof.
  intros I. destruct (isNativePlatform s) eqn:Hnative.
  2:{ unfold scheduleApplicationNotifications. by rewrite Hnative. }
  pose proof (consistent_cancelAllApplications s I) as I0.
  rewrite cancelAllApplicationNotifications_native in I0 by done.
  rewrite scheduleApplicationNotifications_native by done. cbv zeta.
  set (due := dueApplications parseDate apps now).
  set (c := notificationCounter s).
  set (R := applicationReminders parseDate due now c).
  set (m0 := removeAll (map notificationId (storedApplicationSchedule s)) (pending s)) in *.
  assert (Hlen : length R = length due) by apply length_applicationReminders.
  assert (Hlook : forall k n, registerAll R m0 !! k = Some n
            <-> (exists i, R !! i = Some n /\ k = c + Z.of_nat i) \/ m0 !! k = Some n).
  { intros k n. apply lookup_registerAll_Some.
    - apply ids_applicationReminders.
    - intros k' n' H. by apply (pending_ids _ I0) in H as [_ ?]. }
  assert (HR : forall i r, R !! i = Some r ->
            NotificationService.id r = c + Z.of_nat i
            /\ exists f w, extra r = ApplicationExtra f w).
  { intros i r. unfold R, applicationReminders. rewrite lookup_zip_with_seqZ.
    destruct (due !! i) as [app|]; [|done]. intros [= <-]. split; [done|].
    by eexists _, _. }
  split; cbn [notificationCounter storedSchedule storedApplicationSchedule
                pending isNativePlatform].
  - apply I.
  - apply I.
  - replace (notificationId <$> applicationEntries due c)
      with (seqZ c (Z.of_nat (length due))); [apply NoDup_seqZ|].
    unfold applicationEntries. generalize c. clear.
    induction due as [|a l IH]; intros c; [done|].
    rewrite seqZ_succ_length. cbn [zip_with]. rewrite fmap_cons. cbn. f_equal.
    apply IH.
  - intros k n [(i & Hi & ->)|H]%Hlook.
    + pose proof (lookup_lt_Some _ _ _ Hi). apply HR in Hi as [-> _]. lia.
    + apply (pending_ids _ I0) in H. cbn in H. fold c in H. lia.
  - intros k n f d [(i & Hi & ->)|H]%Hlook Hx.
    + apply HR in Hi as [_ (f' & w' & Hx')]. congruence.
    + by apply (firearm_tracked _ I0 k n f d).
  - intros e k He Hk.
    destruct (firearm_live _ I0 e k He Hk) as (n & d & Hp & Hx).
    exists n, d. split; [|done]. apply Hlook. by right.
  - intros a Ha. unfold applicationEntries in Ha.
    apply list_elem_of_lookup in Ha as [i Hi]. rewrite lookup_zip_with_seqZ in Hi.
    destruct (due !! i) as [app|] eqn:Ei; [|done]. injection Hi as <-.
    cbn [notificationId].
    destruct (lookup_lt_is_Some_2 R i) as [r Hr];
      [rewrite Hlen; by eapply lookup_lt_Some|].
    destruct (HR i r Hr) as [_ (f & w & Hx)].
    exists r, f, w. split; [|done]. apply Hlook. left. by exists i.
Qed.

Lemma consistent_cancelApplication aid s :
  consistent s -> consistent (cancelApplicationNotification aid s).
Proof.
  intros I. unfold cancelApplicationNotification, loadApplicationSchedule.
  destruct (isNativePlatform s) eqn:Hnative; cbn [negb]; [|done].
  destruct (List.find _ _) as [a0|] eqn:F; [|done].
  apply find_some in F as [Hin0%list_elem_of_In Hb%bool_decide_eq_true].
  destruct (application_live s I a0 Hin0) as (n0 & f0 & w0 & Hp0 & Hx0).
  unfold saveApplicationSchedule, LocalNotifications_cancel, removeAll.
  cbn [foldl notificationCounter storedSchedule storedApplicationSchedule pending
         isNativePlatform].
  split; cbn [notificationCounter storedSchedule storedApplicationSchedule
                pending isNativePlatform].
  - apply I.
  - apply I.
  - apply NoDup_fmap_filter, I.
  - intros k n [_ H]%lookup_delete_Some. by apply I.
  - intros k n f d [_ H]%lookup_delete_Some Hx.
    by apply (firearm_tracked s I k n f d).
  - intros e k He Hk. destruct (firearm_live s I e k He Hk) as (n & d & Hp & Hx).
    exists n, d. split; [|done]. apply lookup_delete_Some. split; [|done].
    intros <-. rewrite Hp in Hp0. injection Hp0 as <-. congruence.
  - intros a [Hne Ha]%list_elem_of_filter.
    destruct (application_live s I a Ha) as (n & f & w & Hp & Hx).
    exists n, f, w. split; [|done]. apply lookup_delete_Some. split; [|done].
    intros E. apply Hne. rewrite <- Hb. f_equal.
    symmetry. by apply (NoDup_fmap_eq notificationId (storedApplicationSchedule s));
      [apply I|..].
Qed.

(** Every state the service can be in is consistent. *)
Lemma reachable_consistent parseDate s : reachable parseDate s -> consistent s.
Proof.
  induction 1.
  - apply consistent_initial.
  - by apply consistent_scheduleFirearm.
  - by apply consistent_cancelFirearm.
  - by apply consistent_cancelAll.
  - by apply consistent_test.
  - by apply consistent_scheduleApplications.
  - by apply consistent_cancelAllApplications.
  - by apply consistent_cancelApplication.
Qed.

Lemma reachable_rescheduleAll parseDate firearms now s :
  reachable parseDate s -> reachable parseDate (rescheduleAllFirearms parseDate firearms now s).
Proof.
  intros Hs. unfold rescheduleAllFirearms.
  assert (H0 : reachable parseDate (cancelAllNotifications s)) by (by constructor).
  revert H0. generalize (cancelAllNotifications s).
  induction firearms as [|f firearms IH]; intros s0 H0; [done|].
  cbn [foldl]. apply IH. by constructor.
Qed.

(** ** Cancelling and rescheduling the reminders of one firearm *)

Lemma filter_all {A} (P : A -> Prop) `{!forall x, Decision (P x)} (l : list A) :
  (forall x, x ∈ l -> P x) -> filter P l = l.
Proof.
  induction l as [|x l IH]; intros Hall; [done|].
  rewrite filter_cons, decide_True by (apply Hall; by left).
  f_equal. apply IH. intros y Hy. apply Hall. by right.
Qed.

Lemma remindsOf_true fid n :
  remindsOf fid n = true <-> exists days, extra n = FirearmExtra fid days.
Proof.
  unfold remindsOf. destruct (extra n) as [f d| |].
  - rewrite bool_decide_eq_true. split; [intros ->; by exists d|].
    by intros (days & [= -> _]).
  - split; [done|]. by intros (days & ?).
  - split; [done|]. by intros (days & ?).
Qed.

Lemma liveReminders_lookup fid s k n :
  liveReminders fid s !! k = Some n
  <-> pending s !! k = Some n /\ exists days, extra n = FirearmExtra fid days.
Proof.
  unfold liveReminders. rewrite map_lookup_filter_Some. cbn [snd].
  by rewrite remindsOf_true.
Qed.

(** The state after [cancelFirearmNotifications] on a consistent service. *)
Lemma cancelFirearmNotifications_pending fid s :
  isNativePlatform s = true -> tracking s ->
  let s' := cancelFirearmNotifications fid s in
  storedSchedule s' = filter (fun e => firearmId e <> fid) (storedSchedule s)
  /\ forall k n, pending s' !! k = Some n
                 <-> pending s !! k = Some n /\ remindsOf fid n = false.
Proof.
  intros Hnative I s'. unfold s'. rewrite cancelFirearmNotifications_native by done.
  destruct (List.find _ _) as [e0|] eqn:F.
  - apply find_firearm_Some in F as [Hin0 Hf0].
    cbn [storedSchedule pending]. split; [done|]. intros k n.
    rewrite lookup_removeAll.
    destruct (decide (k ∈ notificationIds e0)) as [Hk0|Hk0].
    + split; [done|]. intros [H Hr]. exfalso.
      destruct (tracking_live s I e0 k Hin0 Hk0) as (n' & d & Hp & Hx).
      rewrite H in Hp. injection Hp as <-.
      assert (remindsOf fid n = true) by (apply remindsOf_true; exists d; congruence).
      congruence.
    + split; [|by intros [? _]]. intros H. split; [done|].
      destruct (remindsOf fid n) eqn:Hr; [|done]. exfalso. apply Hk0.
      apply remindsOf_true in Hr as [d Hx].
      destruct (tracking_tracked s I k n fid d H Hx) as (e & He & Hf & Hk).
      replace e0 with e; [done|].
      apply (NoDup_fmap_eq firearmId (storedSchedule s)); [apply I|done..|congruence].
  - pose proof (find_firearm_None _ _ F) as Hnone. split.
    + symmetry. by apply filter_all.
    + intros k n. split; [|by intros [? _]]. intros H. split; [done|].
      destruct (remindsOf fid n) eqn:Hr; [|done]. exfalso.
      apply remindsOf_true in Hr as [d Hx].
      destruct (tracking_tracked s I k n fid d H Hx) as (e & He & Hf & _).
      by apply (Hnone e He).
Qed.

Lemma cancelFirearmNotifications_none_live fid s :
  isNativePlatform s = true -> tracking s ->
  liveReminders fid (cancelFirearmNotifications fid s) = ∅.
Proof.
  intros Hnative I.
  destruct (cancelFirearmNotifications_pending fid s Hnative I) as [_ Hp].
  apply map_empty. intros k.
  destruct (liveReminders fid (cancelFirearmNotifications fid s) !! k) as [n|] eqn:E;
    [|done].
  apply liveReminders_lookup in E as [[_ Hr]%Hp Hx%remindsOf_true]. congruence.
Qed.


(** After one call on a consistent service the reminders registered for
    the firearm are those of this call. *)
Lemma scheduleFirearmNotifications_live parseDate firearm now s :
  isNativePlatform s = true -> consistent s ->
  let expiry := parseDate (FirearmRecord.expiryDate firearm) in
  let due := applicableIntervals expiry now in
  forall k n,
    liveReminders (FirearmRecord.id firearm)
      (scheduleFirearmNotifications parseDate firearm now s) !! k = Some n
    <-> exists i, firearmReminders firearm expiry due (notificationCounter s) !! i
                  = Some n
                  /\ k = notificationCounter s + Z.of_nat i.
Proof.
  intros Hnative I expiry due k n.
  set (fid := FirearmRecord.id firearm).
  pose proof (consistent_cancelFirearm fid s I) as I0.
  pose proof (cancelFirearmNotifications_no_entry fid s Hnative
                (consistent_tracking s I)) as Hfresh.
  destruct (cancelFirearmNotifications_fields fid s) as (Hc0 & _ & _).
  destruct (scheduleFirearmNotifications_native parseDate firearm now s Hnative)
    as (_ & Hp & _).
  fold fid expiry due in Hp.
  rewrite liveReminders_lookup, Hp.
  rewrite (lookup_registerAll_Some _ _ (notificationCounter s));
    [|apply ids_firearmReminders
     |intros k' n' H; apply (pending_ids _ I0) in H; lia].
  split.
  - intros [[H|H] (d & Hx)]; [done|]. exfalso.
    destruct (firearm_tracked _ I0 k n fid d H Hx) as (e & He & Hf & _).
    by apply (Hfresh e He).
  - intros (i & Hi & ->). split; [left; by exists i|].
    apply firearmReminders_lookup_Some in Hi as (days & _ & ->). by exists days.
Qed.


(** ** The theorems on the sample data *)

Lemma scheduleFirearmNotifications_offsets_witness :
  applicableIntervals (Samples.parseDate "2024-01-02") Samples.tenDaysBefore = [7; 3; 1]
  /\ size (pending (scheduleFirearmNotifications Samples.parseDate Samples.gun
                      Samples.tenDaysBefore (initial true))) = 3%nat.
Proof.
  destruct (scheduleFirearmNotifications_offsets Samples.parseDate Samples.gun
              Samples.tenDaysBefore (initial true) eq_refl)
    as (_ & _ & Hp & _ & _ & _ & _ & Hten).
  split; [apply Hten; vm_compute; reflexivity|].
  rewrite Hp. vm_compute. reflexivity.
Defined.



Lemma scheduleApplicationNotifications_replaces_witness :
  storedApplicationSchedule
    (scheduleApplicationNotifications Samples.parseDate [Samples.application]
       Samples.today (initial true))
  = [ {| applicationId := "a1"; applicationRef := "A123"; notificationId := 1000 |} ].
Proof.
  destruct (scheduleApplicationNotifications_replaces Samples.parseDate
              [Samples.application] Samples.today (initial true) eq_refl)
    as (_ & Hs & _).
  rewrite Hs. vm_compute. reflexivity.
Defined.
